(** * Assistant diagrammes en barres: the rule engine of [app.py]

    A shallow embedding of the help engine of the Streamlit application
    ([guardrails], [analyze_data], [give_hint], [reset_hints]), of the
    step-2 extraction loop, of the "Valider l'étape" handlers and of the
    step-5 report, followed by the properties proved about them.

    Python values are modelled as follows.
    - [str] is a list of Unicode code points ([N]); source literals are
      written as UTF-8 Rocq strings and decoded by [lit].
    - [int] is [Z] (Python integers are unbounded).
    - [float] is [pyfloat]: a dyadic number [m * 2^e], an infinity or a NaN.
      [maxv / 8] rounds to binary64 and raises [OverflowError] beyond the
      range of a double, which is what [int_truediv_8] does.
    - a raised exception is the [Raised] outcome of [result].
    - the builtins whose tables are part of the Unicode database
      ([str.lower], the digits accepted by [int] on a [str]) and the
      shortest [repr] of a float are variables of the sections that use
      them; [ascii_lower] and [ascii_int_of_str] are instances that agree
      with Python on ASCII text.
    - the widgets of the page are the environment: a run of the script
      takes the values they return ([widgets]) and the button that was
      clicked ([click]). *)

From Stdlib Require Import ZArith Lia Ascii String DecimalString.
From stdpp Require Import base decidable option numbers list strings gmap.

Local Open Scope Z_scope.

(** ** Strings as lists of code points *)

Module PyStr.

Definition codepoint := N.
Definition str := list codepoint.

(** UTF-8 decoding of a source literal (well-formed input assumed; a
    malformed byte is kept as it is). *)
Fixpoint utf8_decode (s : string) : str :=
  match s with
  | EmptyString => []
  | String a rest =>
      let b := N_of_ascii a in
      if (b <? 192)%N then b :: utf8_decode rest
      else if (b <? 224)%N then
        match rest with
        | String a1 r1 =>
            ((b - 192) * 64 + (N_of_ascii a1 - 128))%N :: utf8_decode r1
        | EmptyString => [b]
        end
      else if (b <? 240)%N then
        match rest with
        | String a1 (String a2 r2) =>
            ((b - 224) * 4096 + (N_of_ascii a1 - 128) * 64
             + (N_of_ascii a2 - 128))%N :: utf8_decode r2
        | _ => [b]
        end
      else
        match rest with
        | String a1 (String a2 (String a3 r3)) =>
            ((b - 240) * 262144 + (N_of_ascii a1 - 128) * 4096
             + (N_of_ascii a2 - 128) * 64 + (N_of_ascii a3 - 128))%N
            :: utf8_decode r3
        | _ => [b]
        end
  end.

Definition lit (s : string) : str := utf8_decode s.

(** [str.isspace] for one code point: the white-space set of CPython's
    [_PyUnicode_IsWhitespace]. *)
Definition is_space (c : codepoint) : bool :=
  ((9 <=? c) && (c <=? 13) || (28 <=? c) && (c <=? 32)
   || (c =? 133) || (c =? 160) || (c =? 5760)
   || (8192 <=? c) && (c <=? 8202)
   || (c =? 8232) || (c =? 8233) || (c =? 8239) || (c =? 8287)
   || (c =? 12288))%N.

Fixpoint lstrip (s : str) : str :=
  match s with
  | c :: t => if is_space c then lstrip t else s
  | [] => []
  end.

Definition rstrip (s : str) : str := reverse (lstrip (reverse s)).

(** [s.strip()] *)
Definition strip (s : str) : str := rstrip (lstrip s).

Fixpoint starts_with (p s : str) : bool :=
  match p, s with
  | [], _ => true
  | a :: p', b :: s' => bool_decide (a = b) && starts_with p' s'
  | _ :: _, [] => false
  end.

(** [needle in hay] *)
Fixpoint contains (needle hay : str) : bool :=
  starts_with needle hay ||
  match hay with
  | [] => false
  | _ :: t => contains needle t
  end.

(** [sep.join(parts)] *)
Fixpoint join (sep : str) (parts : list str) : str :=
  match parts with
  | [] => []
  | [p] => p
  | p :: rest => p ++ sep ++ join sep rest
  end.

Definition of_ascii_string (s : string) : str :=
  (fun a => N_of_ascii a) <$> list_ascii_of_string s.

(** [str(z)] for an integer: decimal digits with a leading minus sign. *)
Definition str_of_Z (z : Z) : str :=
  of_ascii_string (NilZero.string_of_int (Z.to_int z)).

(** The line feed of ["\n".join(...)]. *)
Definition NEWLINE : str := [10%N].

Definition is_ascii (c : codepoint) : bool := (c <? 128)%N.

(** [str.lower] on an ASCII code point. *)
Definition ascii_lower_cp (c : codepoint) : codepoint :=
  if ((65 <=? c) && (c <=? 90))%N then (c + 32)%N else c.

End PyStr.
Import PyStr.

(** ** Floats and the numeric builtins *)

Inductive pyfloat :=
  | FFinite (m e : Z)      (* the number m * 2^e *)
  | FInf (negative : bool)
  | FNan.

(** Division of a non-negative [m] by [2^k] rounded to the nearest integer,
    ties to the even one. *)
Definition round_half_even_shift (m k : Z) : Z :=
  if k <=? 0 then m * 2 ^ (- k)
  else
    let q := Z.shiftr m k in
    let r := Z.land m (Z.ones k) in
    let half := 2 ^ (k - 1) in
    if r <? half then q
    else if half <? r then q + 1
    else if Z.even q then q else q + 1.

(** The binary64 number nearest to [m * 2^e] (ties to even): at most 53
    significant bits, exponent at least -1074; [None] when the rounded
    magnitude reaches [2^1024] (overflow). *)
Definition round_to_double (m e : Z) : option pyfloat :=
  let a := Z.abs m in
  if a =? 0 then Some (FFinite 0 0)
  else
    let bits := Z.log2 a + 1 in
    let shift := Z.max 0 (Z.max (bits - 53) (- 1074 - e)) in
    let a' := round_half_even_shift a shift in
    let e' := e + shift in
    if 1024 <? Z.log2 a' + 1 + e' then None
    else Some (FFinite (Z.sgn m * a') e').

(** [n / 8] on an integer [n]: the correctly rounded quotient, or
    [OverflowError]. *)
Definition int_truediv_8 (n : Z) : option pyfloat := round_to_double n (- 3).

(** [round(x)] on a float: nearest integer, ties to even; infinities and
    NaN raise. *)
Definition py_round (x : pyfloat) : option Z :=
  match x with
  | FFinite m e => Some (Z.sgn m * round_half_even_shift (Z.abs m) (- e))
  | _ => None
  end.

(** [int(x)] on a float: truncation toward zero; infinities and NaN raise. *)
Definition int_of_float (x : pyfloat) : option Z :=
  match x with
  | FFinite m e =>
      Some (if 0 <=? e then m * 2 ^ e else Z.quot m (2 ^ (- e)))
  | _ => None
  end.

(** ** Values, exceptions and coercions *)

(** The values a count cell or a category cell can hold. *)
Inductive pyval :=
  | PInt (z : Z)
  | PBool (b : bool)
  | PFloat (x : pyfloat)
  | PStr (s : str)
  | PNone.

Inductive exn := ValueError | TypeError | OverflowError.

(** The outcome of a computation that can raise. *)
Inductive result (A : Type) :=
  | Ok (a : A)
  | Raised (e : exn).
Arguments Ok {A} a.
Arguments Raised {A} e.

#[global] Instance result_ret : MRet result := fun A a => Ok a.
#[global] Instance result_bind : MBind result := fun A B f m =>
  match m with
  | Ok a => f a
  | Raised e => Raised e
  end.

Definition of_option {A : Type} (e : exn) (o : option A) : result A :=
  match o with
  | Some a => Ok a
  | None => Raised e
  end.

(** Evaluation of a list comprehension whose element expression can raise:
    left to right, the first exception ends it. *)
Fixpoint traverse {A B : Type} (f : A -> result B) (l : list A)
    : result (list B) :=
  match l with
  | [] => Ok []
  | x :: t => y ← f x; ys ← traverse f t; mret (y :: ys)
  end.

(** [sum(ints)]: a left fold from 0. *)
Definition py_sum (ints : list Z) : Z := foldl Z.add 0 ints.

(** [max(ints)] on a non-empty list (0 stands for the [ValueError] of the
    empty list, which [analyze_data] never asks for). *)
Definition py_max (ints : list Z) : Z :=
  match ints with
  | [] => 0
  | x :: t => foldl Z.max x t
  end.

(** ASCII decimal digits, with single underscores between digits. *)
Fixpoint parse_digits (acc : Z) (after_digit : bool) (s : str) : option Z :=
  match s with
  | [] => if after_digit then Some acc else None
  | c :: t =>
      if ((48 <=? c) && (c <=? 57))%N
      then parse_digits (10 * acc + (Z.of_N c - 48)) true t
      else if (c =? 95)%N && after_digit then parse_digits acc false t
      else None
  end.

(** [int(s)] for an ASCII string; beyond ASCII Python also accepts the
    other Unicode decimal digits. *)
Definition ascii_int_of_str (s : str) : option Z :=
  match strip s with
  | 43%N :: t => parse_digits 0 false t
  | 45%N :: t => Z.opp <$> parse_digits 0 false t
  | t => parse_digits 0 false t
  end.

(** [s.lower()] for an ASCII string; other code points are left as they
    are, where Python follows the Unicode case tables. *)
Definition ascii_lower (s : str) : str := ascii_lower_cp <$> s.

(** ** Messages *)

Definition REFUSAL : str :=
  lit "Je ne peux pas produire le diagramme ni fournir du code de tracé. Je peux t'aider à le construire, étape par étape.".

Definition MSG_DUPLICATES : str :=
  lit "Catégories en doublon ou variantes d'orthographe : harmonise la casse/accents.".
Definition MSG_NON_INTEGER : str :=
  lit "Effectifs non entiers : assure-toi que chaque effectif est un entier.".
Definition MSG_NEGATIVE : str :=
  lit "Effectifs négatifs détectés : vérifie la saisie.".
Definition MSG_NULL_SUM : str :=
  lit "Somme nulle : vérifie que les effectifs ne sont pas vides ou tous nuls.".

Definition HINT_FALLBACK : str :=
  lit "Teste d'abord ta propre idée, puis reviens avec ton choix justifié.".
Definition HINT_SCALE : str :=
  lit "Indice : vise ~8 à 12 graduations régulières sur l'axe vertical. Choisis un pas qui dépasse légèrement l'effectif max quand on multiplie par le nombre de graduations.".
Definition HINT_LABELS : str :=
  lit "Indice : un bon titre = [verbe d'action] + [variable] + [population] + [contexte/année].".
Definition HINT_DATA : str :=
  lit "Indice : liste d'abord les catégories uniques, puis additionne les effectifs de catégories homonymes (casse/accents).".
Definition HINT_DEFAULT : str :=
  lit "Indice : vérifie la cohérence des totaux et l'uniformité des catégories.".

Definition MAX_HINTS_PER_STEP : Z := 1.

Definition BANNED_PHRASES : list str :=
  lit <$> [ "fais le graphique"; "trace le graphique"; "tracer";
            "donne le code"; "code complet"; "plot"; "matplotlib"; "ggplot";
            "fais-le à ma place" ]%string.

(** The [stats] dictionary returned by [analyze_data]. *)
Definition mk_stats (total maxv suggested_step rounded_top : Z)
    : gmap string Z :=
  <["total" := total]> (<["max" := maxv]>
    (<["suggested_step" := suggested_step]>
      (<["rounded_top" := rounded_top]> ∅))).

(** ** The engine *)

Section Engine.

(** [str.lower], [int] on a [str] ([None] is [ValueError]) and [repr] of a
    finite float. *)
Variable lower : str -> str.
Variable int_of_str : str -> option Z.
Variable float_repr : Z -> Z -> str.

(** [int(x)] *)
Definition py_int (x : pyval) : result Z :=
  match x with
  | PInt z => Ok z
  | PBool b => Ok (if b then 1 else 0)
  | PFloat (FFinite m e) => of_option ValueError (int_of_float (FFinite m e))
  | PFloat (FInf _) => Raised OverflowError
  | PFloat FNan => Raised ValueError
  | PStr s => of_option ValueError (int_of_str s)
  | PNone => Raised TypeError
  end.

(** [str(x)] *)
Definition py_str (x : pyval) : str :=
  match x with
  | PInt z => str_of_Z z
  | PBool b => if b then lit "True" else lit "False"
  | PFloat (FFinite m e) => float_repr m e
  | PFloat (FInf negative) => if negative then lit "-inf" else lit "inf"
  | PFloat FNan => lit "nan"
  | PStr s => s
  | PNone => lit "None"
  end.

(** [guardrails(text)] *)
Definition guardrails (text : str) : option str :=
  let lower_text := lower text in
  if existsb (fun b => contains b lower_text) BANNED_PHRASES
  then Some REFUSAL
  else None.

(** [unique] of [analyze_data]: the stripped labels that are not empty. *)
Definition unique_labels (categories : list str) : list str :=
  strip <$> filter (fun c => strip c ≠ []) categories.

(** Lines 43-62 of [analyze_data]: the issues, [total] and [maxv]. None of
    these statements can raise. *)
Definition analyze_counts (categories : list str) (counts : list pyval)
    : list str * Z * Z :=
  let issues := [] in
  let unique := unique_labels categories in
  let issues :=
    if bool_decide (size (list_to_set (lower <$> unique) : gset str)
                    ≠ length unique)
    then issues ++ [MSG_DUPLICATES] else issues in
  let '(issues, ints) :=
    match traverse py_int counts with
    | Ok ints => (issues, ints)
    | Raised _ => (issues ++ [MSG_NON_INTEGER], [])
    end in
  match ints with
  | _ :: _ =>
      let issues :=
        if existsb (fun v => v <? 0) ints
        then issues ++ [MSG_NEGATIVE] else issues in
      let total := py_sum ints in
      let issues :=
        if total =? 0 then issues ++ [MSG_NULL_SUM] else issues in
      (issues, total, py_max ints)
  | [] => (issues, 0, 0)
  end.

(** [max(1, round(maxv / 8)) if maxv else 1] *)
Definition suggest_step (maxv : Z) : result Z :=
  if maxv =? 0 then Ok 1
  else
    q ← of_option OverflowError (int_truediv_8 maxv);
    r ← of_option OverflowError (py_round q);
    mret (Z.max 1 r).

(** [((maxv // suggested_step) + 1) * suggested_step if maxv else 10] *)
Definition round_top (maxv suggested_step : Z) : Z :=
  if maxv =? 0 then 10 else (maxv `div` suggested_step + 1) * suggested_step.

(** [analyze_data(categories, counts)] *)
Definition analyze_data (categories : list str) (counts : list pyval)
    : result (list str * gmap string Z) :=
  let '(issues, total, maxv) := analyze_counts categories counts in
  suggested_step ← suggest_step maxv;
  let rounded_top := round_top maxv suggested_step in
  mret (issues, mk_stats total maxv suggested_step rounded_top).

End Engine.

(** ** Session state *)

Record SessionState := mkSession {
  step : Z;
  hints_given : Z;
  goal : option str;
  variable : option str;
  var_type : option str;
  categories : list str;
  counts : list pyval;
  scale_choice : gmap string Z;
  scale_justif : option str;
  checklist : gmap string bool;
  improvement : option str;
  reflection : option str
}.

(** [SessionState()] *)
Definition default_state : SessionState :=
  mkSession 1 0 None None None [] [] ∅ None ∅ None None.

Definition set_step (v : Z) (s : SessionState) : SessionState :=
  mkSession v (hints_given s) (goal s) (variable s) (var_type s)
    (categories s) (counts s) (scale_choice s) (scale_justif s)
    (checklist s) (improvement s) (reflection s).
Definition set_hints_given (v : Z) (s : SessionState) : SessionState :=
  mkSession (step s) v (goal s) (variable s) (var_type s)
    (categories s) (counts s) (scale_choice s) (scale_justif s)
    (checklist s) (improvement s) (reflection s).
Definition set_goal (v : option str) (s : SessionState) : SessionState :=
  mkSession (step s) (hints_given s) v (variable s) (var_type s)
    (categories s) (counts s) (scale_choice s) (scale_justif s)
    (checklist s) (improvement s) (reflection s).
Definition set_variable (v : option str) (s : SessionState) : SessionState :=
  mkSession (step s) (hints_given s) (goal s) v (var_type s)
    (categories s) (counts s) (scale_choice s) (scale_justif s)
    (checklist s) (improvement s) (reflection s).
Definition set_var_type (v : option str) (s : SessionState) : SessionState :=
  mkSession (step s) (hints_given s) (goal s) (variable s) v
    (categories s) (counts s) (scale_choice s) (scale_justif s)
    (checklist s) (improvement s) (reflection s).
Definition set_categories (v : list str) (s : SessionState) : SessionState :=
  mkSession (step s) (hints_given s) (goal s) (variable s) (var_type s)
    v (counts s) (scale_choice s) (scale_justif s)
    (checklist s) (improvement s) (reflection s).
Definition set_counts (v : list pyval) (s : SessionState) : SessionState :=
  mkSession (step s) (hints_given s) (goal s) (variable s) (var_type s)
    (categories s) v (scale_choice s) (scale_justif s)
    (checklist s) (improvement s) (reflection s).
Definition set_scale_choice (v : gmap string Z) (s : SessionState)
    : SessionState :=
  mkSession (step s) (hints_given s) (goal s) (variable s) (var_type s)
    (categories s) (counts s) v (scale_justif s)
    (checklist s) (improvement s) (reflection s).
Definition set_scale_justif (v : option str) (s : SessionState)
    : SessionState :=
  mkSession (step s) (hints_given s) (goal s) (variable s) (var_type s)
    (categories s) (counts s) (scale_choice s) v
    (checklist s) (improvement s) (reflection s).
Definition set_checklist (v : gmap string bool) (s : SessionState)
    : SessionState :=
  mkSession (step s) (hints_given s) (goal s) (variable s) (var_type s)
    (categories s) (counts s) (scale_choice s) (scale_justif s)
    v (improvement s) (reflection s).
Definition set_improvement (v : option str) (s : SessionState)
    : SessionState :=
  mkSession (step s) (hints_given s) (goal s) (variable s) (var_type s)
    (categories s) (counts s) (scale_choice s) (scale_justif s)
    (checklist s) v (reflection s).
Definition set_reflection (v : option str) (s : SessionState)
    : SessionState :=
  mkSession (step s) (hints_given s) (goal s) (variable s) (var_type s)
    (categories s) (counts s) (scale_choice s) (scale_justif s)
    (checklist s) (improvement s) v.

(** Truth value of a [str | None] field: [None] and the empty string are
    false. *)
Definition truthy (o : option str) : bool :=
  match o with
  | Some (_ :: _) => true
  | _ => false
  end.

(** [give_hint(state, topic)]: the hint and the state after the call. *)
Definition give_hint (state : SessionState) (topic : str)
    : str * SessionState :=
  if MAX_HINTS_PER_STEP <=? hints_given state
  then (HINT_FALLBACK, state)
  else
    let state := set_hints_given (hints_given state + 1) state in
    if bool_decide (topic = lit "scale") then (HINT_SCALE, state)
    else if bool_decide (topic = lit "labels") then (HINT_LABELS, state)
    else if bool_decide (topic = lit "data") then (HINT_DATA, state)
    else (HINT_DEFAULT, state).

(** [reset_hints()], on the engine of the session. *)
Definition reset_hints (engine : SessionState) : SessionState :=
  set_hints_given 0 engine.

(** ** The Streamlit script *)

(** What the page shows besides its widgets. *)
Inductive notice :=
  | Info (s : str)
  | Toast (s : str)
  | Warning (s : str)
  | Error (s : str)
  | Success (s : str).

(** How a run of the script ends: at its last line, by [st.rerun()], or by
    an exception that escapes. *)
Inductive status := Completed | Rerun | Crashed (e : exn).

Inductive click :=
  | NoClick | HintClick | ValidateClick | SidebarReset | BackToStart.

#[global] Instance click_eq_dec : EqDecision click.
Proof. solve_decision. Defined.

(** The values the widgets of the page return in a run. *)
Record widgets := mkWidgets {
  w_goal : str;
  w_variable : str;
  w_var_type : str;
  w_user_free : str;
  w_data : list (gmap string pyval);
  w_step_val : Z;
  w_top_val : Z;
  w_scale_justif : str;
  w_checks : string -> bool;
  w_improvement : str;
  w_reflection : str
}.

Definition ERR_STEP1 : str :=
  lit "Merci de renseigner la question et la variable.".
Definition ERR_STEP2 : str :=
  lit "Il faut au moins 2 catégories et un effectif par catégorie.".
Definition ERR_STEP3 : str :=
  lit "Écris une justification et vérifie que le sommet dépasse l'effectif max.".
Definition ERR_STEP4 : str := lit "Coche au moins un élément prêt.".
Definition INFO_STEP1 : str :=
  lit "Merci, concentre-toi sur la définition claire de la variable et de la population.".
Definition OK_STEP2 : str := lit "Données cohérentes au premier regard.".

(** The keys of [items] of step 4 and of the checklist of the report, in
    the order of the dictionary literals. *)
Definition CHECK_KEYS : list string :=
  [ "title"; "x"; "y"; "bars"; "scale"; "source"; "legend" ]%string.

Definition REPORT_LABELS : list (string * str) :=
  [ ("title", lit "Titre"); ("x", lit "Axe X"); ("y", lit "Axe Y");
    ("bars", lit "Barres"); ("scale", lit "Échelle");
    ("source", lit "Source"); ("legend", lit "Légende") ]%string.

(** [v == 0 or v == ""] *)
Definition is_zero_or_empty (v : pyval) : bool :=
  match v with
  | PInt z => z =? 0
  | PBool b => negb b
  | PFloat (FFinite m _) => m =? 0
  | PStr [] => true
  | _ => false
  end.

(** [d.get(key, 0)] on a dictionary of integers. *)
Definition get0 (d : gmap string Z) (key : string) : Z := default 0 (d !! key).

(** [any(d.values())] *)
Definition any_value (d : gmap string bool) : bool :=
  existsb (fun kv => snd kv) (map_to_list d).

(** The blocks under [if c2.button("✅ Valider l'étape", ...)]: what a run
    does once the button of its step has returned [True]. *)
Definition on_validate_1 (engine : SessionState)
    : SessionState * list notice * status :=
  if negb (truthy (goal engine)) || negb (truthy (variable engine))
  then (engine, [Error ERR_STEP1], Completed)
  else (set_step 2 engine, [], Rerun).

Definition on_validate_2 (engine : SessionState)
    : SessionState * list notice * status :=
  if bool_decide (length (categories engine) < 2)%nat
     || bool_decide (length (categories engine) ≠ length (counts engine))
  then (engine, [Error ERR_STEP2], Completed)
  else (set_step 3 engine, [], Rerun).

Definition on_validate_3 (stats : gmap string Z) (engine : SessionState)
    : SessionState * list notice * status :=
  if negb (truthy (scale_justif engine))
     || (get0 (scale_choice engine) "top" <=? get0 stats "max")
  then (engine, [Error ERR_STEP3], Completed)
  else (set_step 4 engine, [], Rerun).

Definition on_validate_4 (engine : SessionState)
    : SessionState * list notice * status :=
  if negb (any_value (checklist engine))
  then (engine, [Error ERR_STEP4], Completed)
  else (set_step 5 engine, [], Rerun).

(** The two buttons of a step: [c1] gives a hint on [topic], [c2] runs the
    validation block. *)
Definition buttons (c : click) (topic : str)
    (validate : SessionState -> SessionState * list notice * status)
    (engine : SessionState) : SessionState * list notice * status :=
  match c with
  | HintClick =>
      let '(hint, engine) := give_hint engine topic in
      (engine, [Toast hint], Completed)
  | ValidateClick => validate engine
  | _ => (engine, [], Completed)
  end.

(** [on_click=reset_hints]: the callback of the validation button runs
    before the script is run again for the click. *)
Definition callback (c : click) (engine : SessionState) : SessionState :=
  match c with
  | ValidateClick => reset_hints engine
  | _ => engine
  end.

(** A validation click on the page of the current step, seen from the
    button: the callback, then the validation block of the step ([stats]
    is the dictionary the step computed before its buttons). Step 5 has no
    such button. *)
Definition validate_click (stats : gmap string Z) (engine : SessionState)
    : SessionState * list notice * status :=
  if step engine =? 1 then on_validate_1 (callback ValidateClick engine)
  else if step engine =? 2 then on_validate_2 (callback ValidateClick engine)
  else if step engine =? 3
  then on_validate_3 stats (callback ValidateClick engine)
  else if step engine =? 4 then on_validate_4 (callback ValidateClick engine)
  else (engine, [], Completed).

Section Script.

Variable lower : str -> str.
Variable int_of_str : str -> option Z.
Variable float_repr : Z -> Z -> str.

(** The extraction loop of step 2 (lines 177-189): the categories and the
    counts of the rows that are kept. *)
Definition extract_row (acc : list str * list pyval) (row : gmap string pyval)
    : list str * list pyval :=
  let '(cats, counts) := acc in
  let c := strip (py_str float_repr (default (PStr []) (row !! "Catégorie"))) in
  let v := default (PInt 0) (row !! "Effectif") in
  if bool_decide (c = []) && is_zero_or_empty v then (cats, counts)
  else
    (cats ++ [c],
     counts ++ [match py_int int_of_str v with
                | Ok z => PInt z
                | Raised _ => v
                end]).

Definition extract_rows (data : list (gmap string pyval))
    : list str * list pyval :=
  foldl extract_row ([], []) data.

(** [f"{x}"] for a [str | None] field. *)
Definition fmt_opt (o : option str) : str :=
  match o with
  | Some s => s
  | None => lit "None"
  end.

(** [f"{d.get(key, '')}"] on a dictionary of integers. *)
Definition fmt_get (d : gmap string Z) (key : string) : str :=
  match d !! key with
  | Some z => str_of_Z z
  | None => []
  end.

Definition pair_line (cv : str * pyval) : str :=
  lit "- " ++ cv.1 ++ lit " : " ++ py_str float_repr cv.2.

Definition check_line (checklist : gmap string bool) (kl : string * str)
    : str :=
  lit "- " ++ kl.2 ++ lit " : "
  ++ (if default false (checklist !! kl.1) then lit "OK" else lit "À revoir").

(** The report of step 5 (lines 285-318). *)
Definition report_lines (engine : SessionState) : list str :=
  let report_lines :=
    [ lit "# Rapport d'auto-contrôle — Diagramme en barres";
      [];
      lit "Question d'étude : " ++ fmt_opt (goal engine);
      lit "Variable : " ++ fmt_opt (variable engine)
        ++ lit "  ·  Nature : " ++ fmt_opt (var_type engine);
      [];
      lit "Catégories et effectifs :" ] in
  let report_lines :=
    foldl (fun acc cv => acc ++ [pair_line cv]) report_lines
      (zip (categories engine) (counts engine)) in
  let report_lines :=
    report_lines ++
    [ [];
      lit "Échelle choisie : pas = " ++ fmt_get (scale_choice engine) "step"
        ++ lit ", sommet = " ++ fmt_get (scale_choice engine) "top";
      lit "Justification : " ++ fmt_opt (scale_justif engine);
      [];
      lit "Checklist :" ] in
  let report_lines :=
    foldl (fun acc kl => acc ++ [check_line (checklist engine) kl])
      report_lines REPORT_LABELS in
  report_lines ++
  [ [];
    lit "Amélioration prioritaire : " ++ fmt_opt (improvement engine);
    [];
    lit "Réflexion finale : " ++ fmt_opt (reflection engine);
    [];
    lit "(Rappel : le graphique doit être tracé par l'élève dans l'outil de son choix.)" ].


(** What step 2 stores in the engine before it analyses the data. *)
Definition stored_table (w : widgets) (engine : SessionState)
    : SessionState :=
  set_counts (extract_rows (w_data w)).2
    (set_categories (extract_rows (w_data w)).1 engine).

(** What step 3 stores in the engine before its buttons. *)
Definition stored_scale (w : widgets) (engine : SessionState)
    : SessionState :=
  set_scale_justif (Some (w_scale_justif w))
    (set_scale_choice
       (<["step" := w_step_val w]> (<["top" := w_top_val w]> ∅)) engine).

(** What step 1 stores in the engine before its buttons. *)
Definition stored_question (w : widgets) (engine : SessionState)
    : SessionState :=
  set_var_type (Some (w_var_type w))
    (set_variable (Some (w_variable w)) (set_goal (Some (w_goal w)) engine)).

(** What step 4 stores in the engine before its buttons. *)
Definition stored_checklist (w : widgets) (engine : SessionState)
    : SessionState :=
  set_improvement (Some (w_improvement w))
    (foldl (fun e key =>
              set_checklist (<[key := w_checks w key]> (checklist e)) e)
       engine CHECK_KEYS).

(** One run of the script on the engine of the session, for the values
    [w] of the widgets and the button [c] that triggered the run. *)
Definition script (c : click) (w : widgets) (engine : SessionState)
    : SessionState * list notice * status :=
  match c with
  | SidebarReset => (default_state, [], Rerun)
  | _ =>
    if step engine =? 1 then
      let engine := set_goal (Some (w_goal w)) engine in
      let engine := set_variable (Some (w_variable w)) engine in
      let engine := set_var_type (Some (w_var_type w)) engine in
      let shown :=
        match w_user_free w with
        | [] => []
        | _ :: _ =>
            [Info (default INFO_STEP1 (guardrails lower (w_user_free w)))]
        end in
      let '(engine, out, st) :=
        buttons c (lit "data") on_validate_1 engine in
      (engine, shown ++ out, st)
    else if step engine =? 2 then
      let '(cats, vals) := extract_rows (w_data w) in
      let engine := set_categories cats engine in
      let engine := set_counts vals engine in
      match analyze_data lower int_of_str
              (categories engine) (counts engine) with
      | Raised e => (engine, [], Crashed e)
      | Ok (issues, stats) =>
          let shown :=
            match issues with
            | _ :: _ =>
                [Warning (join NEWLINE ((fun msg => lit "• " ++ msg) <$> issues))]
            | [] => [Success OK_STEP2]
            end in
          let '(engine, out, st) :=
            buttons c (lit "data") on_validate_2 engine in
          (engine, shown ++ out, st)
      end
    else if step engine =? 3 then
      match analyze_data lower int_of_str
              (categories engine) (counts engine) with
      | Raised e => (engine, [], Crashed e)
      | Ok (issues, stats) =>
          let engine :=
            set_scale_choice
              (<["step" := w_step_val w]> (<["top" := w_top_val w]> ∅))
              engine in
          let engine := set_scale_justif (Some (w_scale_justif w)) engine in
          buttons c (lit "scale") (on_validate_3 stats) engine
      end
    else if step engine =? 4 then
      let engine :=
        foldl (fun e key =>
                 set_checklist (<[key := w_checks w key]> (checklist e)) e)
          engine CHECK_KEYS in
      let engine := set_improvement (Some (w_improvement w)) engine in
      buttons c (lit "labels") on_validate_4 engine
    else if step engine =? 5 then
      let engine := set_reflection (Some (w_reflection w)) engine in
      match c with
      | BackToStart => (default_state, [], Rerun)
      | _ => (engine, [], Completed)
      end
    else (engine, [], Completed)
  end.

(** A click and the run it triggers: the callback of the validation
    button of steps 1 to 4 first, then the script. *)
Definition interact (c : click) (w : widgets) (engine : SessionState)
    : SessionState * list notice * status :=
  if (1 <=? step engine) && (step engine <=? 4)
  then script c w (callback c engine)
  else script c w engine.

End Script.

(** ** Notions used in the statements *)

(** What the extraction loop reads in a row of the table, and the rows
    it skips. *)
Definition row_category (float_repr : Z -> Z -> str)
    (row : gmap string pyval) : str :=
  strip (py_str float_repr (default (PStr []) (row !! "Catégorie"))).

Definition row_value (row : gmap string pyval) : pyval :=
  default (PInt 0) (row !! "Effectif").

Definition row_count (int_of_str : str -> option Z)
    (row : gmap string pyval) : pyval :=
  match py_int int_of_str (row_value row) with
  | Ok z => PInt z
  | Raised _ => row_value row
  end.

Definition row_kept (float_repr : Z -> Z -> str)
    (row : gmap string pyval) : Prop :=
  (bool_decide (row_category float_repr row = [])
   && is_zero_or_empty (row_value row)) = false.

#[global] Instance row_kept_dec (float_repr : Z -> Z -> str)
    (row : gmap string pyval) : Decision (row_kept float_repr row).
Proof. unfold row_kept. apply _. Defined.

(** How the report marks an item of the checklist. *)
Definition check_mark (checklist : gmap string bool) (key : string) : str :=
  if default false (checklist !! key) then lit "OK" else lit "À revoir".

(** The counter of hints stays between 0 and the cap through every run,
    whatever is clicked. *)
Definition hints_in_range (engine : SessionState) : Prop :=
  0 ≤ hints_given engine ≤ MAX_HINTS_PER_STEP.

(** The text asks for the diagram: its lower-cased form has a banned
    phrase as a substring. *)
Definition asks_for_the_plot (lower : str -> str) (text : str) : Prop :=
  ∃ b, b ∈ BANNED_PHRASES ∧ ∃ pre post, lower text = pre ++ b ++ post.

(** The issue of the duplicate check of [analyze_data], as a list. *)
Definition dup_issues (lower : str -> str) (categories : list str)
    : list str :=
  let unique := unique_labels categories in
  if bool_decide (size (list_to_set (lower <$> unique) : gset str)
                  ≠ length unique)
  then [MSG_DUPLICATES] else [].

(** The issues [analyze_data] raises about coerced counts. *)
Definition count_issues (ints : list Z) : list str :=
  match ints with
  | [] => []
  | _ :: _ =>
      (if existsb (fun v => v <? 0) ints then [MSG_NEGATIVE] else [])
      ++ (if py_sum ints =? 0 then [MSG_NULL_SUM] else [])
  end.

(** The guards of the step gate as the specification tabulates them
    (section 4.4): [canAdvance(step, sessionState, stats)]. *)
Definition can_advance (n : Z) (s : SessionState) (stats : gmap string Z)
    : bool :=
  if n =? 1 then truthy (goal s) && truthy (variable s)
  else if n =? 2 then
    bool_decide (2 ≤ length (categories s))%nat
    && bool_decide (length (categories s) = length (counts s))
  else if n =? 3 then
    truthy (scale_justif s)
    && (get0 stats "max" <? get0 (scale_choice s) "top")
  else if n =? 4 then
    bool_decide (map_Exists (fun _ v => v = true) (checklist s))
  else false.

(** Successive calls of [give_hint] on the same engine, one per topic:
    the hints in call order and the state after the last call. *)
Fixpoint give_hints (state : SessionState) (topics : list str)
    : list str * SessionState :=
  match topics with
  | [] => ([], state)
  | topic :: rest =>
      let '(hint, state) := give_hint state topic in
      let '(hints, state) := give_hints state rest in
      (hint :: hints, state)
  end.

(** The hint [give_hint] has for a topic. *)
Definition topic_hint (topic : str) : str :=
  if bool_decide (topic = lit "scale") then HINT_SCALE
  else if bool_decide (topic = lit "labels") then HINT_LABELS
  else if bool_decide (topic = lit "data") then HINT_DATA
  else HINT_DEFAULT.

(** No white space at the start. *)
Definition no_leading_space (s : str) : Prop :=
  match s with
  | c :: _ => is_space c = false
  | [] => True
  end.

(** A row of the table of step 2. *)
Definition table_row (c : str) (v : pyval) : gmap string pyval :=
  <["Catégorie" := PStr c]> (<["Effectif" := v]> ∅).

(** The state of the session after a sequence of clicks, each with the
    values of the widgets of its run, from a fresh session. *)
Definition run_events (lower : str -> str) (int_of_str : str -> option Z)
    (float_repr : Z -> Z -> str) (events : list (click * widgets))
    : SessionState :=
  foldl (fun engine cw =>
           (interact lower int_of_str float_repr cw.1 cw.2 engine).1.1)
    default_state events.

(** What holds of the session on each page: the step and the counter of
    hints are in range, the stored lists are aligned, the checklist has
    the keys of step 4 only, and the guards of the steps already passed
    still hold of the stored data. *)
Definition session_ok (lower : str -> str) (int_of_str : str -> option Z)
    (engine : SessionState) : Prop :=
  1 ≤ step engine ≤ 5
  ∧ 0 ≤ hints_given engine ≤ MAX_HINTS_PER_STEP
  ∧ length (categories engine) = length (counts engine)
  ∧ (∀ key, key ∉ CHECK_KEYS → checklist engine !! key = None)
  ∧ (2 ≤ step engine →
     truthy (goal engine) = true ∧ truthy (variable engine) = true)
  ∧ (3 ≤ step engine → (2 ≤ length (categories engine))%nat)
  ∧ (4 ≤ step engine →
     truthy (scale_justif engine) = true
     ∧ ∃ issues stats,
         analyze_data lower int_of_str (categories engine) (counts engine)
         = Ok (issues, stats)
         ∧ get0 stats "max" < get0 (scale_choice engine) "top")
  ∧ (5 ≤ step engine → any_value (checklist engine) = true).

(** The messages of [analyze_data], in the order it appends them. *)
Definition ALL_ISSUES : list str :=
  [MSG_DUPLICATES; MSG_NON_INTEGER; MSG_NEGATIVE; MSG_NULL_SUM].

(** The rows the table of step 2 is opened with (lines 169-171): one per
    stored category, padded with empty rows up to five. *)
Definition initial_rows (engine : SessionState) : list (gmap string pyval) :=
  imap (fun i c =>
          <["Catégorie" :=
              PStr (if bool_decide (i < length (categories engine))%nat
                    then c else [])]>
            (<["Effectif" :=
                 match counts engine !! i with
                 | Some v => v
                 | None => PInt 0
                 end]> ∅))
    (categories engine ++ replicate (5 - length (categories engine)) []).

(** The arguments step 3 gives to its two number inputs (lines 226-228):
    the value the first opens with, the minimum and the value of the
    second. *)
Definition step_input_value (stats : gmap string Z) : Z :=
  default 1 (stats !! "suggested_step").
Definition top_input_min (stats : gmap string Z) : Z :=
  Z.max 1 (get0 stats "max" + 1).
Definition top_input_value (stats : gmap string Z) : Z :=
  default 10 (stats !! "rounded_top").

(** A stored count is an integer, or a value [int] rejects (what line 189
    leaves for the validator). *)
Definition normalised (int_of_str : str -> option Z) (v : pyval) : Prop :=
  (∃ z, v = PInt z) ∨ (∃ e, py_int int_of_str v = Raised e).

(** * Properties *)

(** Reduces the fields of a session state that was built by setters. *)
Ltac fields :=
  cbn [step hints_given goal variable var_type categories counts
       scale_choice scale_justif checklist improvement reflection
       set_step set_hints_given set_goal set_variable set_var_type
       set_categories set_counts set_scale_choice set_scale_justif
       set_checklist set_improvement set_reflection
       stored_question stored_table stored_scale reset_hints] in *.

(** Closes an equation between closed terms by evaluation. *)
Ltac by_evaluation :=
  lazymatch goal with
  | |- ?lhs = ?rhs => vm_cast_no_check (eq_refl rhs)
  end.

(** ** Strings *)

Lemma starts_with_prefix (p s : str) :
  starts_with p s = true ↔ ∃ post, s = p ++ post.
Proof.
  revert s. induction p as [|a p IH]; intros s; simpl.
  - split; [intros _; by exists s | done].
  - destruct s as [|b s].
    + split; [done | intros [post Hp]; discriminate Hp].
    + rewrite andb_true_iff, bool_decide_eq_true, IH. split.
      * intros [-> [post ->]]. by exists post.
      * intros [post Hp]. injection Hp as -> ->. eauto.
Qed.

Lemma contains_infix (needle hay : str) :
  contains needle hay = true ↔ ∃ pre post, hay = pre ++ needle ++ post.
Proof.
  induction hay as [|c hay IH]; simpl.
  - rewrite orb_false_r, starts_with_prefix. split.
    + intros [post Hp]. by exists [], post.
    + intros [pre [post Hp]]. destruct pre; [by exists post|discriminate Hp].
  - rewrite orb_true_iff, starts_with_prefix, IH. split.
    + intros [[post Hp]|[pre [post Hp]]].
      * by exists [], post.
      * exists (c :: pre), post. by rewrite Hp.
    + intros [pre [post Hp]]. destruct pre as [|c' pre]; simpl in Hp.
      * left. by exists post.
      * right. injection Hp as _ Hp. by exists pre, post.
Qed.

Lemma join_app_singleton (sep : str) (parts : list str) (p : str) :
  parts ≠ [] → join sep (parts ++ [p]) = join sep parts ++ sep ++ p.
Proof.
  induction parts as [|q parts IH]; [done|]. intros _.
  destruct parts as [|q' parts]; [done|].
  change (join sep ((q :: q' :: parts) ++ [p]))
    with (q ++ sep ++ join sep ((q' :: parts) ++ [p])).
  rewrite IH by done.
  change (join sep (q :: q' :: parts)) with (q ++ sep ++ join sep (q' :: parts)).
  by rewrite <- !app_assoc.
Qed.


(** A loop that appends one element per item builds the mapped list. *)
Lemma foldl_append_map {A B : Type} (f : A → B) (l : list A) (acc : list B) :
  foldl (fun acc x => acc ++ [f x]) acc l = acc ++ (f <$> l).
Proof.
  revert acc. induction l as [|x l IH]; intros acc; simpl.
  - by rewrite app_nil_r.
  - rewrite IH. by rewrite <- app_assoc.
Qed.

(** ** Rounding and the scale suggestion *)

Lemma round_half_even_shift_0 (m : Z) : round_half_even_shift m 0 = m.
Proof. unfold round_half_even_shift. simpl. lia. Qed.

(** For a positive shift the result is the quotient or its successor. *)
Lemma round_half_even_shift_bounds (m k : Z) :
  0 < k →
  m `div` 2 ^ k ≤ round_half_even_shift m k ≤ m `div` 2 ^ k + 1.
Proof.
  intros Hk. unfold round_half_even_shift.
  destruct (Z.leb_spec k 0) as [?|_]; [lia|].
  rewrite Z.shiftr_div_pow2 by lia.
  repeat case_match; lia.
Qed.

(** The result is a nearest integer: twice its distance to [m / 2^k] is at
    most 1, in units of [2^k]. *)
Lemma round_half_even_shift_nearest (m k : Z) :
  0 < k →
  Z.abs (2 * (round_half_even_shift m k * 2 ^ k - m)) ≤ 2 ^ k.
Proof.
  intros Hk. unfold round_half_even_shift.
  destruct (Z.leb_spec k 0) as [?|_]; [lia|].
  rewrite Z.shiftr_div_pow2, Z.land_ones by lia.
  assert (Hp : 2 ^ k = 2 * 2 ^ (k - 1)).
  { rewrite <- Z.pow_succ_r by lia. f_equal. lia. }
  assert (0 < 2 ^ (k - 1)) by (apply Z.pow_pos_nonneg; lia).
  pose proof (Z.div_mod m (2 ^ k) ltac:(lia)) as Hdm.
  pose proof (Z.mod_pos_bound m (2 ^ k) ltac:(lia)) as Hmod.
  destruct (Z.ltb_spec (m `mod` 2 ^ k) (2 ^ (k - 1))).
  { nia. }
  destruct (Z.ltb_spec (2 ^ (k - 1)) (m `mod` 2 ^ k)).
  { nia. }
  destruct (Z.even (m `div` 2 ^ k)); nia.
Qed.

Lemma round_half_even_shift_nonneg (m k : Z) :
  0 ≤ m → 0 ≤ round_half_even_shift m k.
Proof.
  intros Hm. destruct (Z.le_gt_cases k 0) as [Hk|Hk].
  - unfold round_half_even_shift.
    destruct (Z.leb_spec k 0); [|lia].
    apply Z.mul_nonneg_nonneg; [done|]. apply Z.pow_nonneg. lia.
  - pose proof (round_half_even_shift_bounds m k Hk).
    assert (0 ≤ m `div` 2 ^ k); [|lia].
    apply Z.div_pos; [done|]. apply Z.pow_pos_nonneg; lia.
Qed.

(** Below [2^53] in magnitude the quotient by 8 is a double: no rounding. *)
Lemma int_truediv_8_exact (n : Z) :
  Z.abs n < 2 ^ 53 → n ≠ 0 → int_truediv_8 n = Some (FFinite n (- 3)).
Proof.
  intros Hn Hn0. unfold int_truediv_8, round_to_double.
  destruct (Z.eqb_spec (Z.abs n) 0) as [?|_]; [lia|].
  assert (Hl : Z.log2 (Z.abs n) < 53) by (apply Z.log2_lt_pow2; lia).
  replace (Z.max 0 (Z.max (Z.log2 (Z.abs n) + 1 - 53) (-1074 - -3)))
    with 0 by lia.
  rewrite round_half_even_shift_0.
  destruct (Z.ltb_spec 1024 (Z.log2 (Z.abs n) + 1 + (-3 + 0))); [lia|].
  do 2 f_equal. lia.
Qed.

(** Below [2^1024] in magnitude, the range of a double, the division does
    not overflow. *)
Lemma int_truediv_8_finite (n : Z) :
  Z.abs n < 2 ^ 1024 → ∃ m e, int_truediv_8 n = Some (FFinite m e).
Proof.
  intros Hn. unfold int_truediv_8, round_to_double.
  destruct (Z.eqb_spec (Z.abs n) 0) as [?|Hn0]; [by eexists _, _|].
  set (a := Z.abs n) in *.
  assert (Ha : 0 < a) by lia.
  assert (Hl : Z.log2 a < 1024) by (apply Z.log2_lt_pow2; lia).
  pose proof (Z.log2_nonneg a) as Hl0.
  set (shift := Z.max 0 (Z.max (Z.log2 a + 1 - 53) (-1074 - -3))).
  set (a' := round_half_even_shift a shift).
  assert (Hb : Z.log2 a' + 1 + (-3 + shift) ≤ 1024).
  { destruct (Z.le_gt_cases (Z.log2 a + 1) 53) as [Hs|Hs].
    - assert (shift = 0) as -> by (unfold shift; lia).
      unfold a'. rewrite round_half_even_shift_0. lia.
    - assert (Hsh : shift = Z.log2 a + 1 - 53) by (unfold shift; lia).
      pose proof (round_half_even_shift_bounds a shift ltac:(lia)) as Hr.
      assert (a `div` 2 ^ shift < 2 ^ 53).
      { apply Z.div_lt_upper_bound; [apply Z.pow_pos_nonneg; lia|].
        rewrite <- Z.pow_add_r by lia.
        replace (shift + 53) with (Z.log2 a + 1) by lia.
        apply Z.log2_spec. lia. }
      assert (Z.log2 a' ≤ 53); [|lia].
      destruct (Z.le_gt_cases a' 0) as [?|?].
      + rewrite Z.log2_nonpos by done. lia.
      + change 53 with (Z.log2 (2 ^ 53)).
        apply Z.log2_le_mono. fold a' in Hr. lia. }
  destruct (Z.ltb_spec 1024 (Z.log2 a' + 1 + (-3 + shift))); [lia|].
  by eexists _, _.
Qed.

Lemma suggest_step_ge_1 (maxv s : Z) : suggest_step maxv = Ok s → 1 ≤ s.
Proof.
  unfold suggest_step. destruct (maxv =? 0); [intros [= <-]; lia|].
  destruct (int_truediv_8 maxv) as [q|]; [|done]. simpl.
  destruct (py_round q) as [r|]; [|done]. simpl.
  intros [= <-]. lia.
Qed.

(** The suggestion is computed whenever the maximum is in the range of a
    double. *)
Lemma suggest_step_returns (maxv : Z) :
  Z.abs maxv < 2 ^ 1024 → ∃ s, suggest_step maxv = Ok s.
Proof.
  intros Hm. unfold suggest_step. destruct (maxv =? 0); [by eexists|].
  destruct (int_truediv_8_finite maxv Hm) as [m [e ->]]. simpl. by eexists.
Qed.

(** Below [2^53] the float arithmetic is exact: the suggested step is the
    integer nearest to [maxv / 8] (ties to even), at least 1. *)
Lemma suggest_step_exact (maxv : Z) :
  0 < maxv < 2 ^ 53 →
  suggest_step maxv = Ok (Z.max 1 (round_half_even_shift maxv 3)).
Proof.
  intros Hm. unfold suggest_step.
  destruct (Z.eqb_spec maxv 0) as [?|_]; [lia|].
  rewrite int_truediv_8_exact by lia.
  unfold of_option, py_round, mbind, result_bind, mret, result_ret.
  change (- (-3)) with 3.
  rewrite Z.sgn_pos, Z.abs_eq, Z.mul_1_l by lia. reflexivity.
Qed.

(** Above [2^53] it is not: the double nearest to [(2^53 + 5) / 8] is
    [2^50 + 1/2], which [round] sends to [2^50], one less than the integer
    nearest to the quotient. *)
Example suggest_step_double_rounding :
  suggest_step (2 ^ 53 + 5) = Ok (2 ^ 50)
  ∧ round_half_even_shift (2 ^ 53 + 5) 3 = 2 ^ 50 + 1.
Proof. split; vm_compute; reflexivity. Qed.

Lemma round_top_exceeds (maxv s : Z) :
  1 ≤ s → maxv ≠ 0 → maxv < round_top maxv s.
Proof.
  intros Hs Hm. unfold round_top.
  destruct (Z.eqb_spec maxv 0) as [?|_]; [lia|].
  pose proof (Z.div_mod maxv s ltac:(lia)).
  pose proof (Z.mod_pos_bound maxv s ltac:(lia)). nia.
Qed.

(** The rounded top exceeds the maximum by at most one step. *)
Lemma round_top_within_step (maxv s : Z) :
  1 ≤ s → maxv ≠ 0 → round_top maxv s ≤ maxv + s.
Proof.
  intros Hs Hm. unfold round_top.
  destruct (Z.eqb_spec maxv 0) as [?|_]; [lia|].
  pose proof (Z.div_mod maxv s ltac:(lia)).
  pose proof (Z.mod_pos_bound maxv s ltac:(lia)). nia.
Qed.

(** ** Sets of labels, comprehensions, sums and maxima *)

Lemma size_list_to_set_le (l : list str) :
  (size (list_to_set l : gset str) ≤ length l)%nat.
Proof.
  induction l as [|x l IH]; simpl.
  - done.
  - rewrite size_union_alt, size_singleton.
    assert (size (list_to_set l ∖ {[x]} : gset str)
            ≤ size (list_to_set l : gset str))%nat; [|lia].
    apply subseteq_size. intros y Hy. by apply elem_of_difference in Hy as [? _].
Qed.

(** [len(set(l)) == len(l)] says that [l] has no repeated element. *)
Lemma size_list_to_set_NoDup (l : list str) :
  size (list_to_set l : gset str) = length l ↔ NoDup l.
Proof.
  split; [|apply size_list_to_set].
  induction l as [|x l IH]; [constructor|].
  intros Hs. simpl in Hs.
  destruct (decide (x ∈ l)) as [Hin|Hin].
  - exfalso.
    assert (({[x]} ∪ list_to_set l : gset str) = list_to_set l) as Heq.
    { apply subseteq_union_1_L, singleton_subseteq_l.
      by apply elem_of_list_to_set. }
    rewrite Heq in Hs. pose proof (size_list_to_set_le l). lia.
  - assert (({[x]} : gset str) ## list_to_set l) as Hd.
    { apply disjoint_singleton_l. by rewrite elem_of_list_to_set. }
    constructor; [done|]. apply IH.
    rewrite size_union, size_singleton in Hs by done. lia.
Qed.

Lemma traverse_Ok {A B : Type} (f : A → result B) (l : list A) (ys : list B) :
  traverse f l = Ok ys ↔ Forall2 (fun x y => f x = Ok y) l ys.
Proof.
  revert ys. induction l as [|x l IH]; intros ys; simpl.
  - split; [intros [= <-]; constructor | by inversion 1].
  - split.
    + destruct (f x) as [y|e] eqn:Hx; [|done].
      destruct (traverse f l) as [zs|e]; [|done].
      intros [= <-]. constructor; [done|]. by apply IH.
    + inversion 1 as [|? y ? zs Hy Hzs]; subst.
      apply IH in Hzs. by rewrite Hy, Hzs.
Qed.

(** The comprehension raises exactly when one of its elements does. *)
Lemma traverse_Raised {A B : Type} (f : A → result B) (l : list A) :
  (∃ e, traverse f l = Raised e) ↔ Exists (fun x => ∃ e, f x = Raised e) l.
Proof.
  induction l as [|x l IH]; simpl.
  - split; [by intros [e ?] | by inversion 1].
  - destruct (f x) as [y|e] eqn:Hx; simpl.
    + destruct (traverse f l) as [zs|e] eqn:Hl; simpl.
      * split; [by intros [e ?]|].
        inversion 1 as [? ? [e He]|? ? Hex]; subst; [congruence|].
        apply IH in Hex as [e ?]. done.
      * split; [|by eexists]. intros _. apply Exists_cons_tl, IH. by eexists.
    + split; [|by eexists]. intros _. apply Exists_cons_hd. by eexists.
Qed.

Lemma foldl_add_acc (l : list Z) (a : Z) : foldl Z.add a l = a + py_sum l.
Proof.
  unfold py_sum. revert a. induction l as [|x l IH]; intros a; simpl; [lia|].
  rewrite (IH (a + x)), (IH (0 + x)). lia.
Qed.

Lemma py_sum_cons (x : Z) (l : list Z) : py_sum (x :: l) = x + py_sum l.
Proof. unfold py_sum at 1. simpl. apply foldl_add_acc. Qed.

Lemma foldl_max_bounds (P : Z → Prop) (l : list Z) (a : Z) :
  P a → Forall P l → P (foldl Z.max a l).
Proof.
  revert a. induction l as [|x l IH]; intros a Ha Hl; simpl; [done|].
  inversion Hl; subst. apply IH; [|done].
  destruct (Z.max_spec a x) as [[_ ->]|[_ ->]]; done.
Qed.

(** [max(ints)] satisfies whatever every element satisfies. *)
Lemma py_max_Forall (P : Z → Prop) (l : list Z) :
  l ≠ [] → Forall P l → P (py_max l).
Proof.
  destruct l as [|x l]; [done|]. intros _ Hl. inversion Hl; subst.
  unfold py_max. by apply (foldl_max_bounds P).
Qed.

Lemma foldl_max_ge (l : list Z) (a : Z) :
  a ≤ foldl Z.max a l ∧ Forall (fun x => x ≤ foldl Z.max a l) l.
Proof.
  revert a. induction l as [|x l IH]; intros a; simpl; [by split|].
  destruct (IH (Z.max a x)) as [H1 H2]. split; [lia|].
  constructor; [lia|done].
Qed.

(** [max(ints)] is an upper bound of the list. *)
Lemma py_max_upper (l : list Z) : Forall (fun x => x ≤ py_max l) l.
Proof.
  destruct l as [|x l]; [constructor|]. simpl.
  destruct (foldl_max_ge l x). by constructor.
Qed.

Lemma existsb_negative_false (l : list Z) :
  Forall (fun z => 0 ≤ z) l → existsb (fun v => v <? 0) l = false.
Proof.
  induction 1 as [|x l Hx _ IH]; simpl; [done|].
  rewrite IH. destruct (Z.ltb_spec x 0); [lia|done].
Qed.

Lemma mk_stats_lookup (total maxv sstep top : Z) :
  let stats := mk_stats total maxv sstep top in
  stats !! "total" = Some total ∧ stats !! "max" = Some maxv
  ∧ stats !! "suggested_step" = Some sstep
  ∧ stats !! "rounded_top" = Some top.
Proof. repeat split; reflexivity. Qed.

(** ** The data analysis *)

Section Analysis.

Variable lower : str -> str.
Variable int_of_str : str -> option Z.

#[local] Abbreviation py_int := (py_int int_of_str).
#[local] Abbreviation analyze_counts := (analyze_counts lower int_of_str).
#[local] Abbreviation analyze_data := (analyze_data lower int_of_str).

(** The first part of [analyze_data] when every count is accepted by
    [int]. *)
Lemma analyze_counts_accepted (cats : list str) (counts : list pyval)
    (ints : list Z) :
  traverse py_int counts = Ok ints →
  analyze_counts cats counts
  = (dup_issues lower cats ++ count_issues ints, py_sum ints, py_max ints).
Proof.
  intros Ht. unfold analyze_counts, dup_issues, count_issues. rewrite Ht.
  destruct ints as [|z ints].
  - by rewrite app_nil_r.
  - repeat case_match; simpl; rewrite <- ?app_assoc; reflexivity.
Qed.

(** The first part of [analyze_data] when some count makes [int] raise. *)
Lemma analyze_counts_rejected (cats : list str) (counts : list pyval)
    (e : exn) :
  traverse py_int counts = Raised e →
  analyze_counts cats counts
  = (dup_issues lower cats ++ [MSG_NON_INTEGER], 0, 0).
Proof.
  intros Ht. unfold analyze_counts, dup_issues. rewrite Ht.
  by case_match.
Qed.

(** [analyze_data] returns what its first part computed, with the scale
    suggestion, and raises only when the suggestion does. *)
Lemma analyze_data_unfold (cats : list str) (counts : list pyval) :
  analyze_data cats counts =
  match analyze_counts cats counts with
  | (issues, total, maxv) =>
      match suggest_step maxv with
      | Ok s => Ok (issues, mk_stats total maxv s (round_top maxv s))
      | Raised e => Raised e
      end
  end.
Proof.
  unfold analyze_data.
  destruct (analyze_counts cats counts) as [[issues total] maxv].
  by destruct (suggest_step maxv).
Qed.

Lemma dup_issues_NoDup (cats : list str) :
  NoDup (lower <$> unique_labels cats) → dup_issues lower cats = [].
Proof.
  intros Hn. unfold dup_issues.
  apply size_list_to_set_NoDup in Hn. rewrite length_fmap in Hn.
  by rewrite bool_decide_eq_false_2 by (intros ?; done).
Qed.

Lemma dup_issues_dup (cats : list str) :
  ¬ NoDup (lower <$> unique_labels cats) →
  dup_issues lower cats = [MSG_DUPLICATES].
Proof.
  intros Hn. unfold dup_issues.
  rewrite bool_decide_eq_true_2; [done|].
  intros Hs. apply Hn, size_list_to_set_NoDup. by rewrite length_fmap.
Qed.

Lemma count_issues_clean (ints : list Z) :
  Forall (fun z => 0 ≤ z) ints → 0 < py_sum ints → count_issues ints = [].
Proof.
  intros Hpos Hsum. unfold count_issues. destruct ints as [|z ints]; [done|].
  rewrite existsb_negative_false by done.
  destruct (Z.eqb_spec (py_sum (z :: ints)) 0); [lia|done].
Qed.

(** With valid labels and counts, and a maximum in the range of a double,
    [analyze_data] returns and has nothing to report. *)
Lemma analyze_data_clean (cats : list str) (counts : list pyval)
    (ints : list Z) :
  Forall2 (fun x z => py_int x = Ok z) counts ints →
  Forall (fun z => 0 ≤ z < 2 ^ 1024) ints →
  0 < py_sum ints →
  NoDup (lower <$> unique_labels cats) →
  ∃ stats, analyze_data cats counts = Ok ([], stats).
Proof.
  intros Hc Hb Hsum Hn. apply traverse_Ok in Hc.
  rewrite analyze_data_unfold, (analyze_counts_accepted _ _ _ Hc).
  rewrite dup_issues_NoDup by done.
  rewrite count_issues_clean;
    [|by eapply Forall_impl; [done|]; simpl; lia|done].
  assert (ints ≠ []) as Hne by (intros ->; by vm_compute in Hsum).
  pose proof (py_max_Forall _ _ Hne Hb) as Hm. simpl in Hm.
  destruct (suggest_step_returns (py_max ints)) as [s ->]; [lia|].
  by eexists.
Qed.

(** None of the other messages is the non-integer one. *)
Lemma non_integer_not_reported (cats : list str) (ints : list Z) :
  MSG_NON_INTEGER ∉ dup_issues lower cats ++ count_issues ints.
Proof.
  unfold dup_issues, count_issues.
  intros Hin. apply elem_of_app in Hin as [Hin|Hin].
  - case_match; [|by apply elem_of_nil in Hin].
    apply list_elem_of_singleton in Hin. by vm_compute in Hin.
  - destruct ints; [by apply elem_of_nil in Hin|].
    apply elem_of_app in Hin as [Hin|Hin];
      (case_match; [|by apply elem_of_nil in Hin]);
      apply list_elem_of_singleton in Hin; by vm_compute in Hin.
Qed.

(** The non-integer message is in the issues only when some count makes
    [int] raise. *)
Lemma non_integer_issue_only_if (cats : list str) (counts : list pyval) :
  MSG_NON_INTEGER ∈ (analyze_counts cats counts).1.1 →
  Exists (fun x => ∃ e, py_int x = Raised e) counts.
Proof.
  intros Hin. apply traverse_Raised.
  destruct (traverse py_int counts) as [ints|e] eqn:Ht; [|by eexists].
  exfalso. rewrite (analyze_counts_accepted _ _ _ Ht) in Hin.
  by apply non_integer_not_reported in Hin.
Qed.

(** *** The claims about [analyze_data] *)

(** C1 (the code departs from it). The claim: valid non-negative counts
    of positive sum and labels without case-insensitive duplicates give an
    empty issues list. On the single label "A" with the count [2^1030] all
    of this holds, and [analyze_data] does not return: [maxv / 8] is not in
    the range of a double and the [OverflowError] escapes.
    [analyze_data_clean] is the claim for counts below [2^1024]. *)
Theorem analyze_data_overflow :
  let cats := [lit "A"] in
  let counts := [PInt (2 ^ 1030)] in
  NoDup (lower <$> unique_labels cats)
  ∧ Forall2 (fun x z => py_int x = Ok z ∧ 0 ≤ z) counts [2 ^ 1030]
  ∧ 0 < py_sum [2 ^ 1030]
  ∧ analyze_counts cats counts = ([], 2 ^ 1030, 2 ^ 1030)
  ∧ analyze_data cats counts = Raised OverflowError.
Proof.
  intros cats counts.
  assert (Hu : unique_labels cats = [lit "A"]) by (vm_compute; reflexivity).
  assert (Hn : NoDup (lower <$> unique_labels cats)).
  { rewrite Hu. apply NoDup_singleton. }
  assert (Hc : analyze_counts cats counts = ([], 2 ^ 1030, 2 ^ 1030)).
  { rewrite (analyze_counts_accepted cats counts [2 ^ 1030]) by reflexivity.
    rewrite dup_issues_NoDup by done. vm_compute. reflexivity. }
  split; [done|].
  split; [constructor; [split; [reflexivity|by vm_compute]|constructor]|].
  split; [by vm_compute|]. split; [done|].
  rewrite analyze_data_unfold, Hc. vm_compute. reflexivity.
Qed.

(** C2. [analyze_data] returns whenever the counts [int] accepts are
    within the range of a double (below [2^1024] in magnitude), and the
    statistics it returns are such that: for a positive maximum,
    [suggested_step] is [max(1, round(max / 8))] (Python's division and
    rounding, which below [2^53] is the integer nearest to the exact
    quotient, ties to even), [rounded_top] is
    [(max // suggested_step + 1) * suggested_step] and strictly exceeds the
    maximum; for a maximum of 0 they are 1 and 10; a maximum of 37 gives 5
    and 40. *)
Theorem scale_suggestion (cats : list str) (counts : list pyval) :
  (Forall (fun x => ∀ z, py_int x = Ok z → Z.abs z < 2 ^ 1024) counts →
   ∃ issues stats, analyze_data cats counts = Ok (issues, stats))
  ∧ ∀ issues stats,
      analyze_data cats counts = Ok (issues, stats) →
      ∃ maxv sstep top,
        stats !! "max" = Some maxv
        ∧ stats !! "suggested_step" = Some sstep
        ∧ stats !! "rounded_top" = Some top
        ∧ (0 < maxv →
           (∃ q r, int_truediv_8 maxv = Some q ∧ py_round q = Some r
                   ∧ sstep = Z.max 1 r)
           ∧ (maxv < 2 ^ 53 → sstep = Z.max 1 (round_half_even_shift maxv 3))
           ∧ top = (maxv `div` sstep + 1) * sstep
           ∧ maxv < top)
        ∧ (maxv = 0 → sstep = 1 ∧ top = 10)
        ∧ (maxv = 37 → sstep = 5 ∧ top = 40).
Proof.
  split.
  { intros Hb. rewrite analyze_data_unfold.
    destruct (traverse py_int counts) as [ints|e] eqn:Ht.
    - rewrite (analyze_counts_accepted _ _ _ Ht).
      assert (Z.abs (py_max ints) < 2 ^ 1024) as Hm.
      { destruct ints as [|z ints]; [by vm_compute|].
        apply (py_max_Forall (fun z => Z.abs z < 2 ^ 1024)); [done|].
        apply traverse_Ok in Ht. clear -Ht Hb.
        induction Ht as [|x y l k Hxy Hlk IH]; [constructor|].
        inversion Hb; subst. constructor; auto. }
      destruct (suggest_step_returns _ Hm) as [s ->]. by eexists _, _.
    - rewrite (analyze_counts_rejected _ _ _ Ht). by eexists _, _. }
  intros issues stats. rewrite analyze_data_unfold.
  destruct (analyze_counts cats counts) as [[iss total] maxv].
  destruct (suggest_step maxv) as [s|e] eqn:Hs; [|done].
  intros [= <- <-]. exists maxv, s, (round_top maxv s).
  split; [reflexivity|]. split; [reflexivity|]. split; [reflexivity|].
  pose proof (suggest_step_ge_1 _ _ Hs) as Hge.
  split; [|split].
  - intros Hpos. split; [|split; [|split]].
    + unfold suggest_step in Hs.
      destruct (Z.eqb_spec maxv 0) as [?|_]; [lia|].
      destruct (int_truediv_8 maxv) as [q|]; [|discriminate Hs].
      cbv [of_option mbind result_bind] in Hs.
      destruct (py_round q) as [r|] eqn:Hr; [|discriminate Hs].
      cbv [mret result_ret] in Hs. injection Hs as <-. by exists q, r.
    + intros Hlt. rewrite suggest_step_exact in Hs by lia. congruence.
    + unfold round_top. destruct (Z.eqb_spec maxv 0); [lia|done].
    + apply round_top_exceeds; lia.
  - intros ->. vm_compute in Hs. injection Hs as <-. done.
  - intros ->. vm_compute in Hs. injection Hs as <-. done.
Qed.

(** C5. When some count makes [int] raise, [analyze_data] raises nothing:
    it returns, its issues contain the non-integer message, and the
    statistics are total 0, max 0, suggested step 1 and rounded top 10. *)
Theorem analyze_data_non_integer (cats : list str) (counts : list pyval) :
  Exists (fun x => ∃ e, py_int x = Raised e) counts →
  ∃ issues stats,
    analyze_data cats counts = Ok (issues, stats)
    ∧ MSG_NON_INTEGER ∈ issues
    ∧ stats !! "total" = Some 0
    ∧ stats !! "max" = Some 0
    ∧ stats !! "suggested_step" = Some 1
    ∧ stats !! "rounded_top" = Some 10.
Proof.
  intros Hex. apply traverse_Raised in Hex as [e He].
  rewrite analyze_data_unfold, (analyze_counts_rejected _ _ _ He).
  exists (dup_issues lower cats ++ [MSG_NON_INTEGER]), (mk_stats 0 0 1 10).
  split; [reflexivity|]. split; [|by repeat split].
  apply elem_of_app. right. by apply list_elem_of_singleton.
Qed.


End Analysis.

(** *** The analysis on concrete data *)

(** The examples of the specification, with the ASCII builtins. *)
Example analyze_duplicate_labels :
  analyze_data ascii_lower ascii_int_of_str
    [lit "Apple"; lit "apple"] [PInt 1; PInt 2]
  = Ok ([MSG_DUPLICATES], mk_stats 3 2 1 3).
Proof. by_evaluation. Qed.

Example analyze_negative_count :
  analyze_data ascii_lower ascii_int_of_str
    [lit "A"; lit "B"] [PInt (- 1); PInt 2]
  = Ok ([MSG_NEGATIVE], mk_stats 1 2 1 3).
Proof. by_evaluation. Qed.

Example analyze_null_sum :
  analyze_data ascii_lower ascii_int_of_str
    [lit "A"; lit "B"] [PInt 0; PInt 0]
  = Ok ([MSG_NULL_SUM], mk_stats 0 0 1 10).
Proof. by_evaluation. Qed.

Example analyze_non_integer :
  analyze_data ascii_lower ascii_int_of_str
    [lit "A"; lit "B"] [PStr (lit "x"); PInt 2]
  = Ok ([MSG_NON_INTEGER], mk_stats 0 0 1 10).
Proof. by_evaluation. Qed.

(** A negative maximum is as true as a positive one for [if maxv]: the
    step is 1 and the top is the maximum plus one. *)
Example analyze_negative_maximum :
  analyze_data ascii_lower ascii_int_of_str [lit "A"] [PInt (- 5)]
  = Ok ([MSG_NEGATIVE], mk_stats (- 5) (- 5) 1 (- 4)).
Proof. by_evaluation. Qed.

Lemma scale_suggestion_witness :
  let cats := [lit "A"; lit "B"] in
  let counts := [PInt 37; PInt 12] in
  Forall (fun x => ∀ z, py_int ascii_int_of_str x = Ok z → Z.abs z < 2 ^ 1024)
    counts
  ∧ analyze_data ascii_lower ascii_int_of_str cats counts
    = Ok ([], mk_stats 49 37 5 40)
  ∧ (∃ issues stats,
       analyze_data ascii_lower ascii_int_of_str cats counts
       = Ok (issues, stats))
  ∧ ∃ maxv sstep top,
      mk_stats 49 37 5 40 !! "max" = Some maxv
      ∧ mk_stats 49 37 5 40 !! "suggested_step" = Some sstep
      ∧ mk_stats 49 37 5 40 !! "rounded_top" = Some top
      ∧ (0 < maxv →
         (∃ q r, int_truediv_8 maxv = Some q ∧ py_round q = Some r
                 ∧ sstep = Z.max 1 r)
         ∧ (maxv < 2 ^ 53 → sstep = Z.max 1 (round_half_even_shift maxv 3))
         ∧ top = (maxv `div` sstep + 1) * sstep
         ∧ maxv < top)
      ∧ (maxv = 0 → sstep = 1 ∧ top = 10)
      ∧ (maxv = 37 → sstep = 5 ∧ top = 40).
Proof.
  intros cats counts.
  assert (Hin : Forall (fun x => ∀ z, py_int ascii_int_of_str x = Ok z
                                      → Z.abs z < 2 ^ 1024) counts).
  { repeat constructor; intros z [= <-]; by vm_compute. }
  assert (Hrun : analyze_data ascii_lower ascii_int_of_str cats counts
                 = Ok ([], mk_stats 49 37 5 40)) by by_evaluation.
  destruct (scale_suggestion ascii_lower ascii_int_of_str cats counts)
    as [Hreturns Hstats].
  split; [exact Hin|]. split; [exact Hrun|].
  split; [exact (Hreturns Hin)|]. exact (Hstats _ _ Hrun).
Defined.

Lemma analyze_data_non_integer_witness :
  Exists (fun x => ∃ e, py_int ascii_int_of_str x = Raised e)
    [PStr (lit "x"); PInt 2]
  ∧ ∃ issues stats,
      analyze_data ascii_lower ascii_int_of_str
        [lit "A"; lit "B"] [PStr (lit "x"); PInt 2] = Ok (issues, stats)
      ∧ MSG_NON_INTEGER ∈ issues
      ∧ stats !! "total" = Some 0
      ∧ stats !! "max" = Some 0
      ∧ stats !! "suggested_step" = Some 1
      ∧ stats !! "rounded_top" = Some 10.
Proof.
  assert (Hx : Exists (fun x => ∃ e, py_int ascii_int_of_str x = Raised e)
                 [PStr (lit "x"); PInt 2]).
  { apply Exists_cons_hd. exists ValueError. vm_compute. reflexivity. }
  split; [exact Hx|].
  exact (analyze_data_non_integer ascii_lower ascii_int_of_str
           [lit "A"; lit "B"] [PStr (lit "x"); PInt 2] Hx).
Defined.


(** ** The guardrail *)

Lemma all_ascii (s : str) :
  forallb is_ascii s = true → Forall (fun c => is_ascii c = true) s.
Proof.
  intros Hs. apply Forall_forall. intros c Hc. apply list_elem_of_In in Hc.
  revert c Hc. by apply forallb_forall.
Qed.

Section Guardrail.

Variable lower : str -> str.

Lemma guardrails_refuses (text : str) :
  guardrails lower text = Some REFUSAL ↔ asks_for_the_plot lower text.
Proof.
  unfold guardrails, asks_for_the_plot.
  destruct (existsb _ BANNED_PHRASES) eqn:He.
  - split; [intros _|done].
    apply existsb_exists in He as [b [Hin Hc]].
    exists b. split; [by apply list_elem_of_In|]. by apply contains_infix.
  - split; [done|]. intros [b [Hin Hc]]. exfalso.
    assert (existsb (fun b => contains b (lower text)) BANNED_PHRASES = true)
      as Ht; [|congruence].
    apply existsb_exists. exists b.
    split; [by apply list_elem_of_In|]. by apply contains_infix.
Qed.

Lemma guardrails_total (text : str) :
  guardrails lower text = Some REFUSAL ∨ guardrails lower text = None.
Proof. unfold guardrails. destruct (existsb _ _); auto. Qed.

(** C7. [guardrails] answers with the fixed refusal exactly when the
    lower-cased text contains a banned phrase, and with [None] otherwise;
    it reads nothing but its argument. With a [lower] that is Python's on
    ASCII text, "please plot this for me" is refused and "what counts as a
    good title?" is not. *)
Theorem guardrails_spec :
  (∀ s, Forall (fun c => is_ascii c = true) s → lower s = ascii_lower s) →
  (∀ text,
     (guardrails lower text = Some REFUSAL ↔ asks_for_the_plot lower text)
     ∧ (guardrails lower text = None ↔ ¬ asks_for_the_plot lower text))
  ∧ guardrails lower (lit "please plot this for me") = Some REFUSAL
  ∧ guardrails lower (lit "what counts as a good title?") = None.
Proof.
  intros Hl. split; [|split].
  - intros text. split; [apply guardrails_refuses|].
    rewrite <- guardrails_refuses.
    destruct (guardrails_total text) as [-> | ->]; split; try done.
  - unfold guardrails. rewrite Hl by (apply all_ascii; vm_compute; reflexivity).
    vm_compute. reflexivity.
  - unfold guardrails. rewrite Hl by (apply all_ascii; vm_compute; reflexivity).
    vm_compute. reflexivity.
Qed.

End Guardrail.

Lemma guardrails_spec_witness :
  (∀ s, Forall (fun c => is_ascii c = true) s → ascii_lower s = ascii_lower s)
  ∧ (∀ text,
       (guardrails ascii_lower text = Some REFUSAL
        ↔ asks_for_the_plot ascii_lower text)
       ∧ (guardrails ascii_lower text = None
          ↔ ¬ asks_for_the_plot ascii_lower text))
  ∧ guardrails ascii_lower (lit "please plot this for me") = Some REFUSAL
  ∧ guardrails ascii_lower (lit "what counts as a good title?") = None.
Proof.
  split; [reflexivity|].
  apply (guardrails_spec ascii_lower). reflexivity.
Defined.

(** The match is on the lower-cased text: capitals do not hide a phrase. *)
Example guardrails_capitals :
  guardrails ascii_lower (lit "Donne le CODE complet") = Some REFUSAL.
Proof. vm_compute. reflexivity. Qed.

(** ** Hints *)

Lemma topic_hint_not_fallback (topic : str) : topic_hint topic ≠ HINT_FALLBACK.
Proof. unfold topic_hint. repeat case_match; by vm_compute. Qed.

(** A first hint of a step. *)
Lemma give_hint_fresh (state : SessionState) (topic : str) :
  hints_given state < MAX_HINTS_PER_STEP →
  give_hint state topic
  = (topic_hint topic, set_hints_given (hints_given state + 1) state).
Proof.
  intros Hh. unfold give_hint, topic_hint.
  destruct (Z.leb_spec MAX_HINTS_PER_STEP (hints_given state)); [lia|].
  repeat case_match; reflexivity.
Qed.

(** A hint asked for once the cap is reached. *)
Lemma give_hint_capped (state : SessionState) (topic : str) :
  MAX_HINTS_PER_STEP ≤ hints_given state →
  give_hint state topic = (HINT_FALLBACK, state).
Proof.
  intros Hh. unfold give_hint.
  destruct (Z.leb_spec MAX_HINTS_PER_STEP (hints_given state)); [done|lia].
Qed.

(** [give_hint] keeps the counter between 0 and the cap. *)
Lemma give_hint_bounded (state : SessionState) (topic : str) :
  0 ≤ hints_given state ≤ MAX_HINTS_PER_STEP →
  0 ≤ hints_given (give_hint state topic).2 ≤ MAX_HINTS_PER_STEP.
Proof.
  intros Hb.
  destruct (Z.lt_ge_cases (hints_given state) MAX_HINTS_PER_STEP) as [Hlt|Hge].
  - rewrite give_hint_fresh by done. simpl. lia.
  - rewrite give_hint_capped by done. done.
Qed.

Lemma give_hints_bounded (topics : list str) (state : SessionState) :
  0 ≤ hints_given state ≤ MAX_HINTS_PER_STEP →
  0 ≤ hints_given (give_hints state topics).2 ≤ MAX_HINTS_PER_STEP.
Proof.
  revert state. induction topics as [|t topics IH]; intros state Hb; [done|].
  simpl. pose proof (give_hint_bounded state t Hb) as Hb1.
  destruct (give_hint state t) as [h s1]. specialize (IH s1 Hb1).
  by destruct (give_hints s1 topics).
Qed.

(** C6. From a counter at 0, two calls of [give_hint] in a row: the first
    returns the hint of its topic and sets the counter to 1, the second
    returns the generic message and leaves the state as it is; whatever
    calls follow, the counter never exceeds 1. *)
Theorem give_hint_twice (state : SessionState) (topic1 topic2 : str) :
  hints_given state = 0 →
  let first := give_hint state topic1 in
  let second := give_hint first.2 topic2 in
  first.1 = topic_hint topic1
  ∧ first.1 ≠ HINT_FALLBACK
  ∧ hints_given first.2 = 1
  ∧ second.1 = HINT_FALLBACK
  ∧ second.2 = first.2
  ∧ hints_given second.2 = 1
  ∧ ∀ topics, hints_given (give_hints state topics).2 ≤ 1.
Proof.
  intros H0 first second. unfold second, first.
  rewrite give_hint_fresh by (rewrite H0; done). simpl.
  rewrite give_hint_capped by (simpl; rewrite H0; done). simpl.
  repeat split; try (rewrite H0; done).
  - apply topic_hint_not_fallback.
  - intros topics. apply give_hints_bounded. rewrite H0. done.
Qed.

Lemma give_hint_twice_witness :
  hints_given default_state = 0
  ∧ let first := give_hint default_state (lit "scale") in
    let second := give_hint first.2 (lit "labels") in
    first.1 = topic_hint (lit "scale")
    ∧ first.1 ≠ HINT_FALLBACK
    ∧ hints_given first.2 = 1
    ∧ second.1 = HINT_FALLBACK
    ∧ second.2 = first.2
    ∧ hints_given second.2 = 1
    ∧ ∀ topics, hints_given (give_hints default_state topics).2 ≤ 1.
Proof.
  split; [reflexivity|].
  exact (give_hint_twice default_state (lit "scale") (lit "labels") eq_refl).
Defined.

Example topic_hints :
  topic_hint (lit "scale") = HINT_SCALE
  ∧ topic_hint (lit "labels") = HINT_LABELS
  ∧ topic_hint (lit "data") = HINT_DATA
  ∧ topic_hint (lit "autre") = HINT_DEFAULT.
Proof. repeat split; vm_compute; reflexivity. Qed.

(** ** The step gate *)

Lemma any_value_spec (d : gmap string bool) :
  any_value d = bool_decide (map_Exists (fun _ v => v = true) d).
Proof.
  unfold any_value. destruct (existsb _ _) eqn:He; symmetry.
  - apply bool_decide_eq_true.
    apply existsb_exists in He as [[k v] [Hin Hv]]. simpl in Hv.
    exists k, v. split; [|done].
    by apply elem_of_map_to_list, list_elem_of_In.
  - apply bool_decide_eq_false. intros [k [v [Hkv Hv]]].
    assert (existsb (fun kv : string * bool => kv.2) (map_to_list d) = true)
      as Ht; [|congruence].
    apply existsb_exists. exists (k, v).
    split; [|done]. by apply list_elem_of_In, elem_of_map_to_list.
Qed.

(** The validation block of each step tests the guard the specification
    tabulates for it. *)
Lemma on_validate_1_guard (engine : SessionState) :
  on_validate_1 engine =
  if can_advance 1 engine ∅
  then (set_step 2 engine, [], Rerun)
  else (engine, [Error ERR_STEP1], Completed).
Proof.
  unfold on_validate_1, can_advance. simpl.
  by destruct (truthy (goal engine)), (truthy (variable engine)).
Qed.

Lemma on_validate_2_guard (engine : SessionState) :
  on_validate_2 engine =
  if can_advance 2 engine ∅
  then (set_step 3 engine, [], Rerun)
  else (engine, [Error ERR_STEP2], Completed).
Proof.
  unfold on_validate_2, can_advance. simpl.
  repeat case_bool_decide; simpl; try reflexivity; lia.
Qed.

Lemma on_validate_3_guard (stats : gmap string Z) (engine : SessionState) :
  on_validate_3 stats engine =
  if can_advance 3 engine stats
  then (set_step 4 engine, [], Rerun)
  else (engine, [Error ERR_STEP3], Completed).
Proof.
  unfold on_validate_3, can_advance. simpl.
  destruct (truthy (scale_justif engine)); simpl; [|done].
  destruct (Z.leb_spec (get0 (scale_choice engine) "top") (get0 stats "max")),
    (Z.ltb_spec (get0 stats "max") (get0 (scale_choice engine) "top"));
    try reflexivity; lia.
Qed.

Lemma on_validate_4_guard (engine : SessionState) :
  on_validate_4 engine =
  if can_advance 4 engine ∅
  then (set_step 5 engine, [], Rerun)
  else (engine, [Error ERR_STEP4], Completed).
Proof.
  unfold on_validate_4, can_advance. simpl. rewrite any_value_spec.
  by case_bool_decide.
Qed.

(** The guards read neither the step nor the hint counter. *)
Lemma can_advance_reset_hints (n : Z) (engine : SessionState)
    (stats : gmap string Z) :
  can_advance n (reset_hints engine) stats = can_advance n engine stats.
Proof. reflexivity. Qed.

Lemma can_advance_stats (n : Z) (engine : SessionState)
    (stats : gmap string Z) :
  n ≠ 3 → can_advance n engine stats = can_advance n engine ∅.
Proof.
  intros Hn. unfold can_advance.
  destruct (Z.eqb_spec n 3) as [?|_]; [done|]. reflexivity.
Qed.

(** A validation click, in one equation: the hint counter is reset, and
    the step advances when the guard of the step holds; otherwise an error
    is shown. *)
Lemma validate_click_unfold (stats : gmap string Z) (engine : SessionState) :
  1 ≤ step engine ≤ 4 →
  ∃ msg,
    validate_click stats engine =
    if can_advance (step engine) engine stats
    then (set_step (step engine + 1) (reset_hints engine), [], Rerun)
    else (reset_hints engine, [Error msg], Completed).
Proof.
  intros Hs. unfold validate_click, callback.
  assert (step engine = 1 ∨ step engine = 2 ∨ step engine = 3
          ∨ step engine = 4) as [H|[H|[H|H]]] by lia; rewrite H; simpl.
  - exists ERR_STEP1. rewrite on_validate_1_guard, can_advance_reset_hints.
    by rewrite (can_advance_stats 1 engine stats).
  - exists ERR_STEP2. rewrite on_validate_2_guard, can_advance_reset_hints.
    by rewrite (can_advance_stats 2 engine stats).
  - exists ERR_STEP3. by rewrite on_validate_3_guard, can_advance_reset_hints.
  - exists ERR_STEP4. rewrite on_validate_4_guard, can_advance_reset_hints.
    by rewrite (can_advance_stats 4 engine stats).
Qed.




(** A failed validation leaves the engine as it was, but for the hint
    counter, which the callback of the button has reset. *)
Lemma validate_click_failed (stats : gmap string Z) (engine : SessionState) :
  1 ≤ step engine ≤ 4 →
  can_advance (step engine) engine stats = false →
  (validate_click stats engine).1.1 = reset_hints engine.
Proof.
  intros Hs Hg. destruct (validate_click_unfold stats engine Hs) as [msg ->].
  by rewrite Hg.
Qed.

(** C4 (the code departs from it). The claim: a validation whose guard
    fails leaves the session state unchanged, the hint counter included.
    On step 2 with no category and one hint already given, the guard fails,
    the step stays 2, and the counter is back to 0: [reset_hints] is the
    [on_click] callback of the button and runs on every click, before the
    guard is looked at. *)
Theorem failed_validation_resets_hints :
  let engine := mkSession 2 1 None None None [] [] ∅ None ∅ None None in
  can_advance (step engine) engine ∅ = false
  ∧ validate_click ∅ engine
    = (set_hints_given 0 engine, [Error ERR_STEP2], Completed)
  ∧ step (validate_click ∅ engine).1.1 = 2
  ∧ hints_given engine = 1
  ∧ hints_given (validate_click ∅ engine).1.1 = 0.
Proof. intros engine. repeat split. Qed.

(** ** The extraction loop of step 2 *)

Section Extraction.

Variable int_of_str : str -> option Z.
Variable float_repr : Z -> Z -> str.

Lemma extract_row_kept (acc : list str * list pyval)
    (row : gmap string pyval) :
  row_kept float_repr row →
  extract_row int_of_str float_repr acc row
  = (acc.1 ++ [row_category float_repr row],
     acc.2 ++ [row_count int_of_str row]).
Proof.
  unfold row_kept, extract_row, row_category, row_count, row_value.
  destruct acc as [cats vals]. intros ->. reflexivity.
Qed.

Lemma extract_row_skipped (acc : list str * list pyval)
    (row : gmap string pyval) :
  ¬ row_kept float_repr row → extract_row int_of_str float_repr acc row = acc.
Proof.
  unfold row_kept, extract_row, row_category, row_value.
  destruct acc as [cats vals]. intros Hk.
  destruct (_ && _); [reflexivity|]. by destruct Hk.
Qed.

(** The loop appends the category and the count of each kept row. *)
Lemma foldl_extract_row (data : list (gmap string pyval))
    (acc : list str * list pyval) :
  foldl (extract_row int_of_str float_repr) acc data
  = (acc.1 ++ (row_category float_repr <$> filter (row_kept float_repr) data),
     acc.2 ++ (row_count int_of_str <$> filter (row_kept float_repr) data)).
Proof.
  revert acc. induction data as [|row data IH]; intros acc; simpl.
  - rewrite !app_nil_r. by destruct acc.
  - rewrite IH. destruct (decide (row_kept float_repr row)) as [Hk|Hk].
    + rewrite extract_row_kept by done. rewrite filter_cons_True by done.
      simpl. by rewrite <- !app_assoc.
    + rewrite extract_row_skipped by done. by rewrite filter_cons_False.
Qed.

(** C9. For every content of the table, the loop keeps the category and
    the count of the same rows, in order: the two lists have the same
    length, so on the engine they are stored in, the validation block of
    step 2 fails exactly when there are fewer than two categories. *)
Theorem extract_rows_aligned (data : list (gmap string pyval))
    (engine : SessionState) :
  let cats := (extract_rows int_of_str float_repr data).1 in
  let vals := (extract_rows int_of_str float_repr data).2 in
  let engine := set_counts vals (set_categories cats engine) in
  cats = (row_category float_repr <$> filter (row_kept float_repr) data)
  ∧ vals = (row_count int_of_str <$> filter (row_kept float_repr) data)
  ∧ length cats = length vals
  ∧ length (categories engine) = length (counts engine)
  ∧ bool_decide (length (categories engine) ≠ length (counts engine)) = false
  ∧ on_validate_2 engine
    = (if bool_decide (length cats < 2)%nat
       then (engine, [Error ERR_STEP2], Completed)
       else (set_step 3 engine, [], Rerun)).
Proof.
  intros cats vals engine'.
  assert (Hc : cats = (row_category float_repr
                         <$> filter (row_kept float_repr) data)).
  { unfold cats, extract_rows. by rewrite foldl_extract_row. }
  assert (Hv : vals = (row_count int_of_str
                         <$> filter (row_kept float_repr) data)).
  { unfold vals, extract_rows. by rewrite foldl_extract_row. }
  assert (Hl : length cats = length vals).
  { by rewrite Hc, Hv, !length_fmap. }
  split; [done|]. split; [done|]. split; [done|]. split; [exact Hl|].
  split; [by apply bool_decide_eq_false_2; intros Hn; apply Hn|].
  unfold on_validate_2.
  change (categories engine') with cats. change (counts engine') with vals.
  rewrite (bool_decide_eq_false_2 (length cats ≠ length vals))
    by (intros Hn; by apply Hn).
  by rewrite orb_false_r.
Qed.

End Extraction.

(** ** The report *)



Section Report.

Variable float_repr : Z -> Z -> str.

(** The lines of the report, in order. *)
Lemma report_lines_layout (engine : SessionState) :
  report_lines float_repr engine =
  [ lit "# Rapport d'auto-contrôle — Diagramme en barres";
    [];
    lit "Question d'étude : " ++ fmt_opt (goal engine);
    lit "Variable : " ++ fmt_opt (variable engine)
      ++ lit "  ·  Nature : " ++ fmt_opt (var_type engine);
    [];
    lit "Catégories et effectifs :" ]
  ++ (pair_line float_repr <$> zip (categories engine) (counts engine))
  ++ [ [];
       lit "Échelle choisie : pas = " ++ fmt_get (scale_choice engine) "step"
         ++ lit ", sommet = " ++ fmt_get (scale_choice engine) "top";
       lit "Justification : " ++ fmt_opt (scale_justif engine);
       [];
       lit "Checklist :" ]
  ++ [ lit "- " ++ lit "Titre" ++ lit " : "
         ++ check_mark (checklist engine) "title";
       lit "- " ++ lit "Axe X" ++ lit " : "
         ++ check_mark (checklist engine) "x";
       lit "- " ++ lit "Axe Y" ++ lit " : "
         ++ check_mark (checklist engine) "y";
       lit "- " ++ lit "Barres" ++ lit " : "
         ++ check_mark (checklist engine) "bars";
       lit "- " ++ lit "Échelle" ++ lit " : "
         ++ check_mark (checklist engine) "scale";
       lit "- " ++ lit "Source" ++ lit " : "
         ++ check_mark (checklist engine) "source";
       lit "- " ++ lit "Légende" ++ lit " : "
         ++ check_mark (checklist engine) "legend" ]
  ++ [ [];
       lit "Amélioration prioritaire : " ++ fmt_opt (improvement engine);
       [];
       lit "Réflexion finale : " ++ fmt_opt (reflection engine);
       [];
       lit "(Rappel : le graphique doit être tracé par l'élève dans l'outil de son choix.)" ].
Proof.
  unfold report_lines. rewrite !foldl_append_map.
  rewrite <- !app_assoc. reflexivity.
Qed.


End Report.

(** The lines of the report of a filled session. *)
Example report_example :
  report_lines (fun _ _ => [])
    (mkSession 5 0 (Some (lit "Fruits préférés ?")) (Some (lit "Fruit"))
       (Some (lit "qualitative")) [lit "Pomme"; lit "Kiwi"] [PInt 12; PInt 7]
       (<["step" := 2]> (<["top" := 14]> ∅)) (Some (lit "Pas de 2."))
       (<["title" := true]> (<["x" := true]> (<["y" := false]> ∅)))
       (Some (lit "Titre")) (Some (lit "Bien.")))
  = [ lit "# Rapport d'auto-contrôle — Diagramme en barres";
      [];
      lit "Question d'étude : Fruits préférés ?";
      lit "Variable : Fruit  ·  Nature : qualitative";
      [];
      lit "Catégories et effectifs :";
      lit "- Pomme : 12";
      lit "- Kiwi : 7";
      [];
      lit "Échelle choisie : pas = 2, sommet = 14";
      lit "Justification : Pas de 2.";
      [];
      lit "Checklist :";
      lit "- Titre : OK";
      lit "- Axe X : OK";
      lit "- Axe Y : À revoir";
      lit "- Barres : À revoir";
      lit "- Échelle : À revoir";
      lit "- Source : À revoir";
      lit "- Légende : À revoir";
      [];
      lit "Amélioration prioritaire : Titre";
      [];
      lit "Réflexion finale : Bien.";
      [];
      lit "(Rappel : le graphique doit être tracé par l'élève dans l'outil de son choix.)" ].
Proof. by_evaluation. Qed.

(** [zip] stops at the shorter list, and a field that was never filled
    prints as [None]. *)
Example report_unfilled :
  report_lines (fun _ _ => [])
    (set_counts [PInt 1] (set_categories [lit "a"; lit "b"] default_state))
  !! 6%nat = Some (lit "- a : 1")
  ∧ report_lines (fun _ _ => [])
      (set_counts [PInt 1] (set_categories [lit "a"; lit "b"] default_state))
    !! 2%nat = Some (lit "Question d'étude : None")
  ∧ length (report_lines (fun _ _ => [])
      (set_counts [PInt 1] (set_categories [lit "a"; lit "b"] default_state)))
    = 25%nat.
Proof. repeat split; by_evaluation. Qed.

(** ** Runs of the script *)

Section Runs.

Variable lower : str -> str.
Variable int_of_str : str -> option Z.
Variable float_repr : Z -> Z -> str.

(** A validation click on step 2: when the analysis of the table returns,
    the state after the run is the one the validation block gives on the
    stored table; when it raises, the run stops before the buttons. *)
Lemma interact_validate_step2 (w : widgets) (engine : SessionState) :
  step engine = 2 →
  match analyze_data lower int_of_str
          (categories (stored_table int_of_str float_repr w engine))
          (counts (stored_table int_of_str float_repr w engine)) with
  | Ok (issues, stats) =>
      (interact lower int_of_str float_repr ValidateClick w engine).1.1
      = (validate_click stats (stored_table int_of_str float_repr w engine)).1.1
  | Raised e =>
      interact lower int_of_str float_repr ValidateClick w engine
      = (reset_hints (stored_table int_of_str float_repr w engine), [], Crashed e)
  end.
Proof.
  intros H2. unfold interact, script, validate_click, stored_table.
  destruct engine as [st hg g v vt cs ns sc sj cl im rf]. simpl in *.
  subst st. simpl.
  destruct (extract_rows int_of_str float_repr (w_data w)) as [cats vals].
  simpl.
  destruct (analyze_data lower int_of_str cats vals) as [[issues stats]|e];
    [|reflexivity].
  by destruct (on_validate_2 _) as [[e1 o1] s1].
Qed.

(** A validation click on step 3, likewise: the maximum the guard reads
    is the one [analyze_data] computed for the stored data. *)
Lemma interact_validate_step3 (w : widgets) (engine : SessionState) :
  step engine = 3 →
  match analyze_data lower int_of_str
          (categories engine) (counts engine) with
  | Ok (issues, stats) =>
      interact lower int_of_str float_repr ValidateClick w engine
      = validate_click stats (stored_scale w engine)
  | Raised e =>
      interact lower int_of_str float_repr ValidateClick w engine
      = (reset_hints engine, [], Crashed e)
  end.
Proof.
  intros H3. unfold interact, script, validate_click, stored_scale.
  destruct engine as [st hg g v vt cs ns sc sj cl im rf]. simpl in *.
  subst st. simpl.
  by destruct (analyze_data lower int_of_str cs ns) as [[issues stats]|e].
Qed.

Lemma on_validate_hints (stats : gmap string Z) (engine : SessionState) :
  hints_given (on_validate_1 engine).1.1 = hints_given engine
  ∧ hints_given (on_validate_2 engine).1.1 = hints_given engine
  ∧ hints_given (on_validate_3 stats engine).1.1 = hints_given engine
  ∧ hints_given (on_validate_4 engine).1.1 = hints_given engine.
Proof.
  unfold on_validate_1, on_validate_2, on_validate_3, on_validate_4.
  repeat split; by case_match.
Qed.

Lemma buttons_hints_in_range (c : click) (topic : str)
    (validate : SessionState → SessionState * list notice * status)
    (engine : SessionState) :
  hints_given (validate engine).1.1 = hints_given engine →
  hints_in_range engine →
  hints_in_range (buttons c topic validate engine).1.1.
Proof.
  intros Hv Hb. unfold buttons, hints_in_range in *. destruct c; try done.
  - pose proof (give_hint_bounded engine topic Hb) as Hg.
    by destruct (give_hint engine topic).
  - by rewrite Hv.
Qed.

Lemma script_hints_in_range (c : click) (w : widgets)
    (engine : SessionState) :
  hints_in_range engine →
  hints_in_range (script lower int_of_str float_repr c w engine).1.1.
Proof.
  intros Hb. unfold script.
  destruct (decide (c = SidebarReset)) as [->|Hc]; [by vm_compute|].
  assert (∀ (T : Type) (a b : T),
            match c with SidebarReset => a | _ => b end = b) as Hm
    by (intros; by destruct c).
  rewrite Hm. clear Hm.
  destruct (step engine =? 1).
  { match goal with
    | |- context [buttons c ?t ?v ?e] =>
        pose proof (buttons_hints_in_range c t v e
                      (proj1 (on_validate_hints ∅ e)) Hb) as Hr;
        by destruct (buttons c t v e) as [[e1 o1] s1]
    end. }
  destruct (step engine =? 2).
  { destruct (extract_rows int_of_str float_repr (w_data w)) as [cats vals].
    destruct (analyze_data _ _ _ _) as [[issues stats]|e]; [|done].
    match goal with
    | |- context [buttons c ?t ?v ?e] =>
        pose proof (buttons_hints_in_range c t v e
                      (proj1 (proj2 (on_validate_hints ∅ e))) Hb) as Hr;
        by destruct (buttons c t v e) as [[e1 o1] s1]
    end. }
  destruct (step engine =? 3).
  { destruct (analyze_data _ _ _ _) as [[issues stats]|e]; [|done].
    match goal with
    | |- context [buttons c ?t ?v ?e] =>
        exact (buttons_hints_in_range c t v e
                 (proj1 (proj2 (proj2 (on_validate_hints stats e)))) Hb)
    end. }
  destruct (step engine =? 4).
  { match goal with
    | |- context [buttons c ?t ?v ?e] =>
        exact (buttons_hints_in_range c t v e
                 (proj2 (proj2 (proj2 (on_validate_hints ∅ e)))) Hb)
    end. }
  destruct (step engine =? 5); [|done].
  by destruct c.
Qed.

(** Whatever the student clicks, on whatever page, the counter of hints
    stays between 0 and 1. *)
Lemma interact_hints_in_range (c : click) (w : widgets)
    (engine : SessionState) :
  hints_in_range engine →
  hints_in_range (interact lower int_of_str float_repr c w engine).1.1.
Proof.
  intros Hb. unfold interact.
  destruct (_ && _); apply script_hints_in_range; [|done].
  by destruct c.
Qed.

End Runs.

(** One hint, a validation that fails, and the same step gives a second
    hint of its topic: the failed validation has reset the counter. *)
Example two_hints_in_one_step :
  let w := mkWidgets [] [] [] [] [] 1 10 [] (fun _ => false) [] [] in
  let run c s := interact ascii_lower ascii_int_of_str (fun _ _ => []) c w s in
  let r1 := run HintClick (set_step 2 default_state) in
  let r2 := run ValidateClick r1.1.1 in
  let r3 := run HintClick r2.1.1 in
  (r1.1.2 = [Success OK_STEP2; Toast HINT_DATA] ∧ hints_given r1.1.1 = 1)
  ∧ (r2.1.2 = [Success OK_STEP2; Error ERR_STEP2]
     ∧ step r2.1.1 = 2 ∧ hints_given r2.1.1 = 0)
  ∧ r3.1.2 = [Success OK_STEP2; Toast HINT_DATA].
Proof. repeat split; by_evaluation. Qed.

(** Without the validation in between, the second click gets the generic
    message. *)
Example second_hint_is_generic :
  let w := mkWidgets [] [] [] [] [] 1 10 [] (fun _ => false) [] [] in
  let run c s := interact ascii_lower ascii_int_of_str (fun _ _ => []) c w s in
  let r1 := run HintClick (set_step 2 default_state) in
  let r2 := run HintClick r1.1.1 in
  r2.1.2 = [Success OK_STEP2; Toast HINT_FALLBACK] ∧ hints_given r2.1.1 = 1.
Proof. repeat split; by_evaluation. Qed.

(** A full pass through the five steps. *)
Example five_steps :
  let row c v : gmap string pyval :=
    <["Catégorie" := PStr (lit c)]> (<["Effectif" := v]> ∅) in
  let w :=
    mkWidgets (lit "Quels fruits ?") (lit "Fruit") (lit "qualitative") []
      [row "Pomme" (PInt 37); row "Kiwi" (PFloat (FFinite 5 (- 1)));
       row "" (PInt 0)]
      5 40 (lit "Huit graduations.")
      (fun key => bool_decide (key = "title")) (lit "Titre") (lit "Bien.") in
  let run s := (interact ascii_lower ascii_int_of_str (fun _ _ => [])
                  ValidateClick w s).1.1 in
  let s5 := run (run (run (run default_state))) in
  step s5 = 5
  ∧ categories s5 = [lit "Pomme"; lit "Kiwi"]
  ∧ counts s5 = [PInt 37; PInt 2]
  ∧ scale_choice s5 !! "top" = Some 40
  ∧ checklist s5 !! "title" = Some true
  ∧ checklist s5 !! "legend" = Some false.
Proof. repeat split; by_evaluation. Qed.

(** * Further properties of the engine *)

(** ** The issues and the statistics of [analyze_data] *)

Lemma all_issues_distinct : NoDup ALL_ISSUES.
Proof. apply (bool_decide_unpack _). vm_cast_no_check I. Qed.

Section Issues.

Variable lower : str -> str.
Variable int_of_str : str -> option Z.

(** What [analyze_data] returns, from the two parts of its body. *)
Lemma analyze_data_returned (cats : list str) (counts : list pyval)
    (issues : list str) (stats : gmap string Z) :
  analyze_data lower int_of_str cats counts = Ok (issues, stats) →
  ∃ total maxv s,
    analyze_counts lower int_of_str cats counts = (issues, total, maxv)
    ∧ suggest_step maxv = Ok s
    ∧ stats = mk_stats total maxv s (round_top maxv s).
Proof.
  rewrite analyze_data_unfold.
  destruct (analyze_counts lower int_of_str cats counts)
    as [[iss total] maxv].
  destruct (suggest_step maxv) as [s|e] eqn:Hs; [|done].
  intros [= <- <-]. by exists total, maxv, s.
Qed.

(** The issues are the duplicate issue, if any, followed either by the
    non-integer issue or by the issues of the coerced counts. *)
Lemma analyze_counts_issues (cats : list str) (counts : list pyval) :
  (∃ ints,
     traverse (py_int int_of_str) counts = Ok ints
     ∧ analyze_counts lower int_of_str cats counts
       = (dup_issues lower cats ++ count_issues ints,
          py_sum ints, py_max ints))
  ∨ ((∃ e, traverse (py_int int_of_str) counts = Raised e)
     ∧ analyze_counts lower int_of_str cats counts
       = (dup_issues lower cats ++ [MSG_NON_INTEGER], 0, 0)).
Proof.
  destruct (traverse (py_int int_of_str) counts) as [ints|e] eqn:Ht.
  - left. exists ints. split; [done|]. by apply analyze_counts_accepted.
  - right. split; [by eexists|]. by eapply analyze_counts_rejected.
Qed.

Lemma elem_of_dup_issues (cats : list str) (msg : str) :
  msg ∈ dup_issues lower cats
  ↔ msg = MSG_DUPLICATES ∧ ¬ NoDup (lower <$> unique_labels cats).
Proof.
  destruct (decide (NoDup (lower <$> unique_labels cats))) as [Hn|Hn].
  - rewrite dup_issues_NoDup by done. rewrite elem_of_nil.
    generalize MSG_DUPLICATES. intros dup. tauto.
  - rewrite dup_issues_dup by done. rewrite list_elem_of_singleton.
    generalize MSG_DUPLICATES. intros dup. tauto.
Qed.

Lemma elem_of_if_singleton (b : bool) (x msg : str) :
  msg ∈ (if b then [x] else []) ↔ msg = x ∧ b = true.
Proof.
  destruct b.
  - rewrite list_elem_of_singleton. tauto.
  - rewrite elem_of_nil. split; [done|]. by intros [_ ?].
Qed.

Lemma existsb_negative_iff (l : list Z) :
  existsb (fun v => v <? 0) l = true ↔ Exists (fun z => z < 0) l.
Proof.
  rewrite existsb_exists, Exists_exists. split.
  - intros [x [Hin Hx]]. exists x.
    split; [by apply list_elem_of_In|]. by apply Z.ltb_lt.
  - intros [x [Hin Hx]]. exists x.
    split; [by apply list_elem_of_In|]. by apply Z.ltb_lt.
Qed.

Lemma elem_of_count_issues (ints : list Z) (msg : str) :
  msg ∈ count_issues ints
  ↔ (msg = MSG_NEGATIVE ∧ Exists (fun z => z < 0) ints)
    ∨ (msg = MSG_NULL_SUM ∧ ints ≠ [] ∧ py_sum ints = 0).
Proof.
  unfold count_issues. destruct ints as [|z ints].
  { rewrite elem_of_nil. split; [done|].
    intros [[_ H]|[_ [H _]]]; [by inversion H|done]. }
  rewrite elem_of_app, !elem_of_if_singleton, existsb_negative_iff, Z.eqb_eq.
  assert (z :: ints ≠ []) by done.
  generalize MSG_NEGATIVE, MSG_NULL_SUM. intros neg null. tauto.
Qed.

(** X1. In the issues [analyze_data] returns, the duplicate message is
    there exactly when two of the non-empty stripped labels have the same
    lower-cased form, whatever the counts are. *)
Theorem duplicates_issue_iff (cats : list str) (counts : list pyval)
    (issues : list str) (stats : gmap string Z) :
  analyze_data lower int_of_str cats counts = Ok (issues, stats) →
  (MSG_DUPLICATES ∈ issues ↔ ¬ NoDup (lower <$> unique_labels cats)).
Proof.
  intros Hr. apply analyze_data_returned in Hr as (total & maxv & s & Hc & _).
  destruct (analyze_counts_issues cats counts)
    as [(ints & _ & Hi)|(_ & Hi)]; rewrite Hc in Hi;
    injection Hi as -> _ _; rewrite elem_of_app, elem_of_dup_issues.
  - rewrite elem_of_count_issues. split; [|tauto].
    intros [[_ ?]|[[H _]|[H _]]]; [done| |]; by vm_compute in H.
  - rewrite list_elem_of_singleton. split; [|tauto].
    intros [[_ ?]|H]; [done|]. by vm_compute in H.
Qed.

(** X2. The negative-counts message is there exactly when [int] accepts
    every count and one of the coerced values is negative: a count that
    [int] rejects hides the negative ones. *)
Theorem negative_issue_iff (cats : list str) (counts : list pyval)
    (issues : list str) (stats : gmap string Z) :
  analyze_data lower int_of_str cats counts = Ok (issues, stats) →
  (MSG_NEGATIVE ∈ issues
   ↔ ∃ ints, Forall2 (fun x z => py_int int_of_str x = Ok z) counts ints
             ∧ Exists (fun z => z < 0) ints).
Proof.
  intros Hr. apply analyze_data_returned in Hr as (total & maxv & s & Hc & _).
  destruct (analyze_counts_issues cats counts)
    as [(ints & Ht & Hi)|([e He] & Hi)]; rewrite Hc in Hi;
    injection Hi as -> _ _; rewrite elem_of_app, elem_of_dup_issues.
  - rewrite elem_of_count_issues. split.
    + intros [[H _]|[[_ H]|[H _]]]; [by vm_compute in H| |by vm_compute in H].
      exists ints. split; [by apply traverse_Ok|done].
    + intros (ints' & Hf & Hex). apply traverse_Ok in Hf.
      assert (ints' = ints) as -> by congruence. right. left. done.
  - rewrite list_elem_of_singleton. split.
    + intros [[H _]|H]; by vm_compute in H.
    + intros (ints' & Hf & _). apply traverse_Ok in Hf. congruence.
Qed.

(** X3. The null-sum message is there exactly when [int] accepts every
    count, there is at least one count, and the coerced values add up to
    0: an empty list of counts has total 0 and no such message. *)
Theorem null_sum_issue_iff (cats : list str) (counts : list pyval)
    (issues : list str) (stats : gmap string Z) :
  analyze_data lower int_of_str cats counts = Ok (issues, stats) →
  (MSG_NULL_SUM ∈ issues
   ↔ ∃ ints, Forall2 (fun x z => py_int int_of_str x = Ok z) counts ints
             ∧ counts ≠ [] ∧ py_sum ints = 0).
Proof.
  intros Hr. apply analyze_data_returned in Hr as (total & maxv & s & Hc & _).
  destruct (analyze_counts_issues cats counts)
    as [(ints & Ht & Hi)|([e He] & Hi)]; rewrite Hc in Hi;
    injection Hi as -> _ _; rewrite elem_of_app, elem_of_dup_issues.
  - rewrite elem_of_count_issues.
    assert (Hf : Forall2 (fun x z => py_int int_of_str x = Ok z) counts ints)
      by by apply traverse_Ok.
    assert (Hne : ints ≠ [] ↔ counts ≠ []).
    { apply Forall2_length in Hf. destruct ints, counts; done. }
    split.
    + intros [[H _]|[[H _]|[_ [H1 H2]]]];
        [by vm_compute in H|by vm_compute in H|].
      exists ints. by rewrite <- Hne.
    + intros (ints' & Hf' & Hn & Hs). apply traverse_Ok in Hf'.
      assert (ints' = ints) as -> by congruence.
      right. right. by rewrite Hne.
  - rewrite list_elem_of_singleton. split.
    + intros [[H _]|H]; by vm_compute in H.
    + intros (ints' & Hf & _). apply traverse_Ok in Hf. congruence.
Qed.

(** X4. The issues come in a fixed order without repetition: they are a
    sublist of (duplicates, non-integer, negative, null sum), and the
    non-integer message excludes the last two. *)
Theorem issues_in_order (cats : list str) (counts : list pyval)
    (issues : list str) (stats : gmap string Z) :
  analyze_data lower int_of_str cats counts = Ok (issues, stats) →
  issues `sublist_of` ALL_ISSUES
  ∧ (MSG_NON_INTEGER ∈ issues →
     (MSG_NEGATIVE ∉ issues) ∧ (MSG_NULL_SUM ∉ issues)).
Proof.
  intros Hr. apply analyze_data_returned in Hr as (total & maxv & s & Hc & _).
  assert (Hd : dup_issues lower cats = [] ∨ dup_issues lower cats
                                           = [MSG_DUPLICATES]).
  { unfold dup_issues. case_match; auto. }
  destruct (analyze_counts_issues cats counts)
    as [(ints & Ht & Hi)|([e He] & Hi)]; rewrite Hc in Hi;
    injection Hi as -> _ _.
  - split.
    + assert (count_issues ints `sublist_of` [MSG_NEGATIVE; MSG_NULL_SUM])
        as Hs.
      { unfold count_issues. destruct ints as [|z ints]; [apply sublist_nil_l|].
        destruct (existsb _ (z :: ints)), (py_sum (z :: ints) =? 0); simpl.
        - reflexivity.
        - apply sublist_skip, sublist_nil_l.
        - apply sublist_cons, sublist_skip, sublist_nil_l.
        - apply sublist_nil_l. }
      unfold ALL_ISSUES.
      destruct Hd as [-> | ->]; simpl.
      * by do 2 apply sublist_cons.
      * apply sublist_skip. by apply sublist_cons.
    + intros Hin. exfalso. by apply non_integer_not_reported in Hin.
  - split.
    + unfold ALL_ISSUES. destruct Hd as [-> | ->]; simpl.
      * apply sublist_cons, sublist_skip, sublist_nil_l.
      * apply sublist_skip, sublist_skip, sublist_nil_l.
    + intros _. rewrite !elem_of_app, !elem_of_dup_issues,
        !list_elem_of_singleton.
      split; intros [[H _]|H]; by vm_compute in H.
Qed.

End Issues.

(** ** The statistics *)

Lemma py_max_elem_of (l : list Z) : l ≠ [] → py_max l ∈ l.
Proof.
  intros Hl. apply (py_max_Forall (fun x => x ∈ l)); [done|].
  by apply Forall_forall.
Qed.

Lemma py_sum_ge_elem (l : list Z) (x : Z) :
  Forall (fun z => 0 ≤ z) l → x ∈ l → x ≤ py_sum l.
Proof.
  induction 1 as [|y l Hy Hl IH]; intros Hin; [by apply elem_of_nil in Hin|].
  rewrite py_sum_cons.
  assert (0 ≤ py_sum l) as Hs.
  { clear -Hl. induction Hl as [|z l Hz _ IH]; [by vm_compute|].
    rewrite py_sum_cons. lia. }
  apply elem_of_cons in Hin as [->|Hin]; [lia|]. specialize (IH Hin). lia.
Qed.

Lemma py_sum_perm (l k : list Z) : l ≡ₚ k → py_sum l = py_sum k.
Proof.
  induction 1 as [|x l k _ IH|x y l|l k m _ IH1 _ IH2];
    rewrite ?py_sum_cons; first [lia | congruence].
Qed.

Lemma py_max_perm (l k : list Z) : l ≡ₚ k → py_max l = py_max k.
Proof.
  intros Hp. destruct l as [|x l].
  { apply Permutation_nil_l in Hp. by subst. }
  assert (k ≠ []) as Hk.
  { intros ->. by apply Permutation_nil_r in Hp. }
  pose proof (py_max_elem_of (x :: l) ltac:(done)) as H1.
  pose proof (py_max_elem_of k Hk) as H2.
  pose proof (py_max_upper (x :: l)) as U1.
  pose proof (py_max_upper k) as U2.
  rewrite Forall_forall in U1, U2.
  assert (py_max (x :: l) ∈ k) as H1' by (by rewrite <- Hp).
  assert (py_max k ∈ x :: l) as H2' by (by rewrite Hp).
  specialize (U1 _ H2'). specialize (U2 _ H1'). lia.
Qed.

Lemma existsb_negative_perm (l k : list Z) :
  l ≡ₚ k → existsb (fun v => v <? 0) l = existsb (fun v => v <? 0) k.
Proof.
  intros Hp.
  destruct (existsb _ l) eqn:Hl, (existsb _ k) eqn:Hk; try done.
  - apply existsb_negative_iff in Hl. rewrite Hp in Hl.
    apply existsb_negative_iff in Hl. congruence.
  - apply existsb_negative_iff in Hk. rewrite <- Hp in Hk.
    apply existsb_negative_iff in Hk. congruence.
Qed.

Lemma count_issues_perm (l k : list Z) :
  l ≡ₚ k → count_issues l = count_issues k.
Proof.
  intros Hp. unfold count_issues. destruct l as [|x l].
  { apply Permutation_nil_l in Hp. by subst. }
  destruct k as [|y k]; [by apply Permutation_nil_r in Hp|].
  by rewrite (existsb_negative_perm _ _ Hp), (py_sum_perm _ _ Hp).
Qed.

(** Two comprehensions over the same elements in another order agree: both
    raise, or both return, the same elements in the other order. *)
Lemma traverse_perm {A B : Type} (f : A → result B) (l k : list A) :
  l ≡ₚ k →
  match traverse f l, traverse f k with
  | Ok a, Ok b => a ≡ₚ b
  | Raised _, Raised _ => True
  | _, _ => False
  end.
Proof.
  induction 1 as [|x l k _ IH|x y l|l k m _ IH1 _ IH2]; simpl.
  - done.
  - destruct (f x); simpl; [|done].
    destruct (traverse f l), (traverse f k); simpl; try done.
    by constructor.
  - destruct (f x), (f y); simpl; try done.
    destruct (traverse f l); simpl; [|done]. apply perm_swap.
  - destruct (traverse f l), (traverse f k), (traverse f m); try done.
    by etrans.
Qed.

Section Statistics.

Variable lower : str -> str.
Variable int_of_str : str -> option Z.

(** X5. When [int] accepts every count and there is at least one, the
    returned maximum is one of the coerced counts and no count is above
    it, the total is their sum, and without a negative count the maximum
    is at most the total. *)
Theorem stats_max_and_total (cats : list str) (counts : list pyval)
    (issues : list str) (stats : gmap string Z) (coerced : list Z) :
  analyze_data lower int_of_str cats counts = Ok (issues, stats) →
  Forall2 (fun x z => py_int int_of_str x = Ok z) counts coerced →
  counts ≠ [] →
  ∃ total maxv,
    stats !! "total" = Some total ∧ stats !! "max" = Some maxv
    ∧ total = py_sum coerced
    ∧ maxv ∈ coerced
    ∧ Forall (fun z => z ≤ maxv) coerced
    ∧ (Forall (fun z => 0 ≤ z) coerced → maxv ≤ total).
Proof.
  intros Hr Hf Hne.
  apply analyze_data_returned in Hr as (total & maxv & s & Hc & _ & ->).
  apply traverse_Ok in Hf as Ht.
  rewrite (analyze_counts_accepted _ _ _ _ _ Ht) in Hc.
  injection Hc as _ <- <-.
  assert (coerced ≠ []) as Hne'.
  { apply Forall2_length in Hf. destruct coerced, counts; done. }
  exists (py_sum coerced), (py_max coerced).
  split; [reflexivity|]. split; [reflexivity|]. split; [done|].
  split; [by apply py_max_elem_of|]. split; [apply py_max_upper|].
  intros Hpos. apply py_sum_ge_elem; [done|]. by apply py_max_elem_of.
Qed.

(** X6. The analysis does not depend on the order of the rows: with the
    labels in another order and the counts in another order, the outcome
    (issues and statistics, or the exception) is the same. *)
Theorem analyze_data_order (cats cats' : list str)
    (counts counts' : list pyval) :
  cats ≡ₚ cats' → counts ≡ₚ counts' →
  match analyze_data lower int_of_str cats counts,
        analyze_data lower int_of_str cats' counts' with
  | Ok r, Ok r' => r = r'
  | Raised _, Raised _ => True
  | _, _ => False
  end.
Proof.
  intros Hc Hn.
  assert (Hd : dup_issues lower cats = dup_issues lower cats').
  { assert (unique_labels cats ≡ₚ unique_labels cats') as Hu.
    { unfold unique_labels. by apply fmap_Permutation, filter_Permutation. }
    assert (lower <$> unique_labels cats ≡ₚ lower <$> unique_labels cats')
      as Hl by by apply fmap_Permutation.
    unfold dup_issues.
    by rewrite (list_to_set_perm_L _ _ Hl), (Permutation_length Hu). }
  assert (Ha : analyze_counts lower int_of_str cats counts
               = analyze_counts lower int_of_str cats' counts').
  { pose proof (traverse_perm (py_int int_of_str) _ _ Hn) as Ht.
    destruct (traverse (py_int int_of_str) counts) as [a|e] eqn:H1,
      (traverse (py_int int_of_str) counts') as [b|e'] eqn:H2; try done.
    - rewrite (analyze_counts_accepted _ _ _ _ _ H1),
        (analyze_counts_accepted _ _ _ _ _ H2).
      by rewrite Hd, (count_issues_perm _ _ Ht), (py_sum_perm _ _ Ht),
        (py_max_perm _ _ Ht).
    - rewrite (analyze_counts_rejected _ _ _ _ _ H1),
        (analyze_counts_rejected _ _ _ _ _ H2). by rewrite Hd. }
  rewrite !analyze_data_unfold, Ha.
  destruct (analyze_counts lower int_of_str cats' counts')
    as [[issues total] maxv].
  by destruct (suggest_step maxv).
Qed.

(** X7. The only exception [analyze_data] lets out is [OverflowError],
    and only when [int] accepts every count and the largest magnitude
    reaches [2^1024]. *)
Theorem analyze_data_raises_only (cats : list str) (counts : list pyval)
    (e : exn) :
  analyze_data lower int_of_str cats counts = Raised e →
  e = OverflowError
  ∧ ∃ coerced,
      Forall2 (fun x z => py_int int_of_str x = Ok z) counts coerced
      ∧ py_max coerced ∈ coerced
      ∧ 2 ^ 1024 ≤ Z.abs (py_max coerced).
Proof.
  rewrite analyze_data_unfold.
  destruct (analyze_counts_issues lower int_of_str cats counts)
    as [(ints & Ht & ->)|(_ & ->)].
  - destruct (suggest_step (py_max ints)) as [s|e'] eqn:Hs; [done|].
    intros [= ->].
    assert (2 ^ 1024 ≤ Z.abs (py_max ints)) as Hbig.
    { destruct (Z.lt_ge_cases (Z.abs (py_max ints)) (2 ^ 1024)) as [Hlt|?];
        [|done].
      destruct (suggest_step_returns _ Hlt) as [s Hs']. congruence. }
    split.
    + unfold suggest_step in Hs. destruct (py_max ints =? 0); [done|].
      destruct (int_truediv_8 (py_max ints)) as [q|]; [|by injection Hs].
      cbv [of_option mbind result_bind] in Hs.
      destruct (py_round q); [done|by injection Hs].
    + exists ints. split; [by apply traverse_Ok|]. split; [|done].
      apply py_max_elem_of. intros ->. by vm_compute in Hbig.
  - done.
Qed.

End Statistics.

Example analyze_clean_data :
  analyze_data ascii_lower ascii_int_of_str
    [lit "A"; lit "B"] [PInt 37; PInt 12]
  = Ok ([], mk_stats 49 37 5 40).
Proof. by_evaluation. Qed.

Example analyze_huge_count :
  analyze_data ascii_lower ascii_int_of_str [lit "A"] [PInt (2 ^ 1030)]
  = Raised OverflowError.
Proof. by_evaluation. Qed.

Lemma duplicates_issue_iff_witness :
  analyze_data ascii_lower ascii_int_of_str
    [lit "Apple"; lit "apple"] [PInt 1; PInt 2]
  = Ok ([MSG_DUPLICATES], mk_stats 3 2 1 3)
  ∧ (MSG_DUPLICATES ∈ [MSG_DUPLICATES]
     ↔ ¬ NoDup (ascii_lower <$> unique_labels [lit "Apple"; lit "apple"])).
Proof.
  split; [exact analyze_duplicate_labels|].
  exact (duplicates_issue_iff ascii_lower ascii_int_of_str _ _ _ _
           analyze_duplicate_labels).
Defined.

Lemma negative_issue_iff_witness :
  analyze_data ascii_lower ascii_int_of_str
    [lit "A"; lit "B"] [PInt (- 1); PInt 2]
  = Ok ([MSG_NEGATIVE], mk_stats 1 2 1 3)
  ∧ (MSG_NEGATIVE ∈ [MSG_NEGATIVE]
     ↔ ∃ ints,
         Forall2 (fun x z => py_int ascii_int_of_str x = Ok z)
           [PInt (- 1); PInt 2] ints
         ∧ Exists (fun z => z < 0) ints).
Proof.
  split; [exact analyze_negative_count|].
  exact (negative_issue_iff ascii_lower ascii_int_of_str _ _ _ _
           analyze_negative_count).
Defined.

Lemma null_sum_issue_iff_witness :
  analyze_data ascii_lower ascii_int_of_str
    [lit "A"; lit "B"] [PInt 0; PInt 0]
  = Ok ([MSG_NULL_SUM], mk_stats 0 0 1 10)
  ∧ (MSG_NULL_SUM ∈ [MSG_NULL_SUM]
     ↔ ∃ ints,
         Forall2 (fun x z => py_int ascii_int_of_str x = Ok z)
           [PInt 0; PInt 0] ints
         ∧ [PInt 0; PInt 0] ≠ [] ∧ py_sum ints = 0).
Proof.
  split; [exact analyze_null_sum|].
  exact (null_sum_issue_iff ascii_lower ascii_int_of_str _ _ _ _
           analyze_null_sum).
Defined.

Lemma issues_in_order_witness :
  analyze_data ascii_lower ascii_int_of_str
    [lit "A"; lit "B"] [PStr (lit "x"); PInt 2]
  = Ok ([MSG_NON_INTEGER], mk_stats 0 0 1 10)
  ∧ [MSG_NON_INTEGER] `sublist_of` ALL_ISSUES
  ∧ (MSG_NON_INTEGER ∈ [MSG_NON_INTEGER] →
     (MSG_NEGATIVE ∉ [MSG_NON_INTEGER]) ∧ (MSG_NULL_SUM ∉ [MSG_NON_INTEGER])).
Proof.
  split; [exact analyze_non_integer|].
  exact (issues_in_order ascii_lower ascii_int_of_str _ _ _ _
           analyze_non_integer).
Defined.

Lemma stats_max_and_total_witness :
  let counts := [PInt 37; PInt 12] in
  analyze_data ascii_lower ascii_int_of_str [lit "A"; lit "B"] counts
  = Ok ([], mk_stats 49 37 5 40)
  ∧ Forall2 (fun x z => py_int ascii_int_of_str x = Ok z) counts [37; 12]
  ∧ counts ≠ []
  ∧ ∃ total maxv,
      mk_stats 49 37 5 40 !! "total" = Some total
      ∧ mk_stats 49 37 5 40 !! "max" = Some maxv
      ∧ total = py_sum [37; 12]
      ∧ maxv ∈ [37; 12]
      ∧ Forall (fun z => z ≤ maxv) [37; 12]
      ∧ (Forall (fun z => 0 ≤ z) [37; 12] → maxv ≤ total).
Proof.
  intros counts.
  assert (Hf : Forall2 (fun x z => py_int ascii_int_of_str x = Ok z)
                 counts [37; 12]) by (repeat constructor).
  assert (Hne : counts ≠ []) by discriminate.
  split; [exact analyze_clean_data|]. split; [exact Hf|].
  split; [exact Hne|].
  exact (stats_max_and_total ascii_lower ascii_int_of_str _ _ _ _ _
           analyze_clean_data Hf Hne).
Defined.

Lemma analyze_data_order_witness :
  [lit "A"; lit "B"] ≡ₚ [lit "B"; lit "A"]
  ∧ [PInt 37; PInt 12] ≡ₚ [PInt 12; PInt 37]
  ∧ match analyze_data ascii_lower ascii_int_of_str
            [lit "A"; lit "B"] [PInt 37; PInt 12],
          analyze_data ascii_lower ascii_int_of_str
            [lit "B"; lit "A"] [PInt 12; PInt 37] with
    | Ok r, Ok r' => r = r'
    | Raised _, Raised _ => True
    | _, _ => False
    end.
Proof.
  assert (H1 : [lit "A"; lit "B"] ≡ₚ [lit "B"; lit "A"]) by apply perm_swap.
  assert (H2 : [PInt 37; PInt 12] ≡ₚ [PInt 12; PInt 37]) by apply perm_swap.
  split; [exact H1|]. split; [exact H2|].
  exact (analyze_data_order ascii_lower ascii_int_of_str _ _ _ _ H1 H2).
Defined.

Lemma analyze_data_raises_only_witness :
  analyze_data ascii_lower ascii_int_of_str [lit "A"] [PInt (2 ^ 1030)]
  = Raised OverflowError
  ∧ OverflowError = OverflowError
  ∧ ∃ coerced,
      Forall2 (fun x z => py_int ascii_int_of_str x = Ok z)
        [PInt (2 ^ 1030)] coerced
      ∧ py_max coerced ∈ coerced
      ∧ 2 ^ 1024 ≤ Z.abs (py_max coerced).
Proof.
  split; [exact analyze_huge_count|].
  exact (analyze_data_raises_only ascii_lower ascii_int_of_str _ _ _
           analyze_huge_count).
Defined.

(** ** The suggested scale *)

Section Scale.

Variable lower : str -> str.
Variable int_of_str : str -> option Z.

(** X8. In the statistics [analyze_data] returns, the suggested step is
    at least 1 and, for a maximum other than 0 (a negative one included),
    the rounded top is a multiple of the step, above the maximum by one
    step at most. *)
Theorem rounded_top_step (cats : list str) (counts : list pyval)
    (issues : list str) (stats : gmap string Z) :
  analyze_data lower int_of_str cats counts = Ok (issues, stats) →
  ∃ maxv sstep top,
    stats !! "max" = Some maxv
    ∧ stats !! "suggested_step" = Some sstep
    ∧ stats !! "rounded_top" = Some top
    ∧ 1 ≤ sstep
    ∧ (maxv ≠ 0 → (sstep | top) ∧ top - sstep ≤ maxv < top).
Proof.
  intros Hr.
  apply analyze_data_returned in Hr as (total & maxv & s & _ & Hs & ->).
  exists maxv, s, (round_top maxv s).
  pose proof (suggest_step_ge_1 _ _ Hs) as Hge.
  split; [reflexivity|]. split; [reflexivity|]. split; [reflexivity|].
  split; [done|]. intros Hm.
  pose proof (round_top_exceeds maxv s Hge Hm).
  pose proof (round_top_within_step maxv s Hge Hm).
  split; [|lia]. unfold round_top.
  destruct (Z.eqb_spec maxv 0); [done|]. by eexists.
Qed.

(** X9. For a maximum from 4 up to [2^53], the suggested step is within
    half a unit of an eighth of the maximum ([8 * step] is within 4 of it)
    and the suggested axis has between 5 and 12 graduations. *)
Theorem graduations_between_5_and_12 (cats : list str) (counts : list pyval)
    (issues : list str) (stats : gmap string Z) (maxv : Z) :
  analyze_data lower int_of_str cats counts = Ok (issues, stats) →
  stats !! "max" = Some maxv →
  4 ≤ maxv < 2 ^ 53 →
  ∃ sstep top,
    stats !! "suggested_step" = Some sstep
    ∧ stats !! "rounded_top" = Some top
    ∧ Z.abs (8 * sstep - maxv) ≤ 4
    ∧ 5 ≤ top `div` sstep ≤ 12.
Proof.
  intros Hr Hmax Hm.
  apply analyze_data_returned in Hr as (total & maxv' & s & _ & Hs & ->).
  assert (maxv' = maxv) as -> by (by injection Hmax).
  exists s, (round_top maxv s).
  split; [reflexivity|]. split; [reflexivity|].
  rewrite suggest_step_exact in Hs by lia. injection Hs as Hs.
  pose proof (round_half_even_shift_nearest maxv 3 ltac:(lia)) as Hn.
  pose proof (round_half_even_shift_nonneg maxv 3 ltac:(lia)) as H0.
  change (2 ^ 3) with 8 in Hn.
  set (r := round_half_even_shift maxv 3) in *.
  assert (maxv = 12 → r = 2) as H12 by (intros ->; by vm_compute).
  assert (1 ≤ s ∧ 4 * s ≤ maxv ∧ maxv < 12 * s ∧ Z.abs (8 * s - maxv) ≤ 4)
    as (Hs1 & Hlo & Hhi & Hnear).
  { destruct (decide (maxv = 12)) as [He|He]; [specialize (H12 He)|]; lia. }
  split; [done|].
  unfold round_top. destruct (Z.eqb_spec maxv 0); [lia|].
  rewrite Z.div_mul by lia.
  assert (4 ≤ maxv `div` s) by (apply Z.div_le_lower_bound; lia).
  assert (maxv `div` s < 12) by (apply Z.div_lt_upper_bound; lia).
  lia.
Qed.

End Scale.

Lemma rounded_top_step_witness :
  analyze_data ascii_lower ascii_int_of_str
    [lit "A"; lit "B"] [PInt 37; PInt 12]
  = Ok ([], mk_stats 49 37 5 40)
  ∧ ∃ maxv sstep top,
      mk_stats 49 37 5 40 !! "max" = Some maxv
      ∧ mk_stats 49 37 5 40 !! "suggested_step" = Some sstep
      ∧ mk_stats 49 37 5 40 !! "rounded_top" = Some top
      ∧ 1 ≤ sstep
      ∧ (maxv ≠ 0 → (sstep | top) ∧ top - sstep ≤ maxv < top).
Proof.
  split; [exact analyze_clean_data|].
  exact (rounded_top_step ascii_lower ascii_int_of_str _ _ _ _
           analyze_clean_data).
Defined.

Lemma graduations_between_5_and_12_witness :
  analyze_data ascii_lower ascii_int_of_str
    [lit "A"; lit "B"] [PInt 37; PInt 12]
  = Ok ([], mk_stats 49 37 5 40)
  ∧ mk_stats 49 37 5 40 !! "max" = Some 37
  ∧ 4 ≤ 37 < 2 ^ 53
  ∧ ∃ sstep top,
      mk_stats 49 37 5 40 !! "suggested_step" = Some sstep
      ∧ mk_stats 49 37 5 40 !! "rounded_top" = Some top
      ∧ Z.abs (8 * sstep - 37) ≤ 4
      ∧ 5 ≤ top `div` sstep ≤ 12.
Proof.
  assert (Hb : 4 ≤ 37 < 2 ^ 53) by (split; by vm_compute).
  split; [exact analyze_clean_data|]. split; [reflexivity|].
  split; [exact Hb|].
  exact (graduations_between_5_and_12 ascii_lower ascii_int_of_str _ _ _ _ 37
           analyze_clean_data eq_refl Hb).
Defined.

(** ** Stripped labels *)

Lemma lstrip_no_leading (s : str) : no_leading_space (lstrip s).
Proof.
  induction s as [|c s IH]; simpl; [done|].
  by destruct (is_space c) eqn:Hc.
Qed.

Lemma lstrip_id (s : str) : no_leading_space s → lstrip s = s.
Proof. destruct s as [|c s]; simpl; [done|]. by intros ->. Qed.

(** [lstrip] removes a prefix of white space. *)
Lemma lstrip_split (s : str) :
  ∃ pre, s = pre ++ lstrip s ∧ Forall (fun c => is_space c = true) pre.
Proof.
  induction s as [|c s (pre & Hs & Hpre)]; simpl; [by exists []|].
  destruct (is_space c) eqn:Hc.
  - exists (c :: pre). split; [by rewrite Hs at 1|by constructor].
  - by exists [].
Qed.

Lemma rstrip_split (s : str) :
  ∃ post, s = rstrip s ++ post ∧ Forall (fun c => is_space c = true) post.
Proof.
  destruct (lstrip_split (reverse s)) as (pre & Hs & Hpre).
  exists (reverse pre). split.
  - unfold rstrip. rewrite <- reverse_app, <- Hs. by rewrite reverse_involutive.
  - by apply Forall_reverse.
Qed.

Lemma rstrip_id (s : str) : no_leading_space (reverse s) → rstrip s = s.
Proof.
  intros Hs. unfold rstrip. rewrite lstrip_id by done.
  apply reverse_involutive.
Qed.

Lemma rstrip_no_leading (s : str) :
  no_leading_space s → no_leading_space (rstrip s).
Proof.
  intros Hs. destruct (rstrip_split s) as (post & Heq & _).
  destruct (rstrip s) as [|c w]; [done|].
  rewrite Heq in Hs. exact Hs.
Qed.

(** [strip] has nothing left to strip from its result. *)
Lemma strip_idempotent (s : str) : strip (strip s) = strip s.
Proof.
  unfold strip at 1.
  rewrite (lstrip_id (strip s))
    by apply rstrip_no_leading, lstrip_no_leading.
  apply rstrip_id. unfold strip, rstrip. rewrite reverse_involutive.
  apply lstrip_no_leading.
Qed.

(** Two elements with the same image at different places: the images are
    not all distinct. *)
Lemma fmap_not_NoDup {A B : Type} (f : A → B) (l : list A) (i j : nat)
    (x y : A) :
  i ≠ j → l !! i = Some x → l !! j = Some y → f x = f y →
  ¬ NoDup (f <$> l).
Proof.
  intros Hij Hi Hj Hxy Hn. apply Hij.
  apply (proj1 (NoDup_alt (f <$> l)) Hn i j (f x));
    rewrite list_lookup_fmap; [by rewrite Hi|by rewrite Hj, Hxy].
Qed.

(** An element of a list is at some place of the filtered list, and two
    elements keep their order. *)
Lemma filter_lookup_two {A : Type} (P : A → Prop) `{∀ x, Decision (P x)}
    (l : list A) (i j : nat) (x y : A) :
  (i < j)%nat → l !! i = Some x → l !! j = Some y → P x → P y →
  ∃ i' j', (i' < j')%nat ∧ filter P l !! i' = Some x
           ∧ filter P l !! j' = Some y.
Proof.
  intros Hij Hi Hj Hx Hy.
  pose proof (take_drop_middle l i x Hi) as Hl.
  assert (drop (S i) l !! (j - S i)%nat = Some y) as Hj'.
  { rewrite lookup_drop. by replace (S i + (j - S i))%nat with j by lia. }
  pose proof (take_drop_middle _ _ _ Hj') as Hd.
  set (l1 := take i l) in *. set (l2 := take (j - S i) (drop (S i) l)) in *.
  set (l3 := drop (S (j - S i)) (drop (S i) l)) in *.
  rewrite <- Hl, <- Hd.
  rewrite !filter_app, !filter_cons_True, filter_app, filter_cons_True by done.
  exists (length (filter P l1)),
    (length (filter P l1) + S (length (filter P l2)))%nat.
  split; [lia|]. split.
  - by rewrite list_lookup_middle.
  - rewrite lookup_app_r by lia.
    replace (length (filter P l1) + S (length (filter P l2))
             - length (filter P l1))%nat
      with (S (length (filter P l2))) by lia.
    simpl. by rewrite list_lookup_middle.
Qed.

Section Labels.

Variable lower : str -> str.
Variable int_of_str : str -> option Z.

(** X10. Two labels at different rows that are not blank and have the same
    lower-cased form once stripped (they differ by case or by surrounding
    white space only) are reported as duplicates. *)
Theorem duplicate_labels_flagged (cats : list str) (counts : list pyval)
    (issues : list str) (stats : gmap string Z) (i j : nat) (a b : str) :
  analyze_data lower int_of_str cats counts = Ok (issues, stats) →
  i ≠ j → cats !! i = Some a → cats !! j = Some b →
  strip a ≠ [] → strip b ≠ [] →
  lower (strip a) = lower (strip b) →
  MSG_DUPLICATES ∈ issues.
Proof.
  intros Hr Hij Hi Hj Ha Hb Hab.
  assert (¬ NoDup (lower <$> unique_labels cats)) as Hn.
  { unfold unique_labels. rewrite <- list_fmap_compose.
    destruct (Nat.lt_total i j) as [Hlt|[?|Hlt]]; [|done|].
    - destruct (filter_lookup_two (fun c => strip c ≠ []) cats i j a b)
        as (i' & j' & Hlt' & Hi' & Hj'); try done.
      eapply (fmap_not_NoDup _ _ i' j' a b); try done. lia.
    - destruct (filter_lookup_two (fun c => strip c ≠ []) cats j i b a)
        as (i' & j' & Hlt' & Hi' & Hj'); try done.
      eapply (fmap_not_NoDup _ _ i' j' b a); try done. lia. }
  apply analyze_data_returned in Hr as (total & maxv & s & Hc & _).
  destruct (analyze_counts_issues lower int_of_str cats counts)
    as [(ints & _ & Hi')|(_ & Hi')]; rewrite Hc in Hi';
    injection Hi' as -> _ _; apply elem_of_app; left;
    by apply elem_of_dup_issues.
Qed.

End Labels.

Lemma duplicate_labels_flagged_witness :
  let cats := [lit " Kiwi"; lit "Pomme"; lit "kiwi "] in
  analyze_data ascii_lower ascii_int_of_str cats [PInt 1; PInt 2; PInt 3]
  = Ok ([MSG_DUPLICATES], mk_stats 6 3 1 4)
  ∧ 0%nat ≠ 2%nat
  ∧ cats !! 0%nat = Some (lit " Kiwi")
  ∧ cats !! 2%nat = Some (lit "kiwi ")
  ∧ strip (lit " Kiwi") ≠ []
  ∧ strip (lit "kiwi ") ≠ []
  ∧ ascii_lower (strip (lit " Kiwi")) = ascii_lower (strip (lit "kiwi "))
  ∧ MSG_DUPLICATES ∈ [MSG_DUPLICATES].
Proof.
  intros cats.
  assert (Hrun : analyze_data ascii_lower ascii_int_of_str cats
                   [PInt 1; PInt 2; PInt 3]
                 = Ok ([MSG_DUPLICATES], mk_stats 6 3 1 4)) by by_evaluation.
  assert (Hij : 0%nat ≠ 2%nat) by discriminate.
  assert (Ha : strip (lit " Kiwi") ≠ []) by (by vm_compute).
  assert (Hb : strip (lit "kiwi ") ≠ []) by (by vm_compute).
  assert (Hab : ascii_lower (strip (lit " Kiwi"))
                = ascii_lower (strip (lit "kiwi "))) by by_evaluation.
  repeat (split; [first [exact Hrun|exact Hij|reflexivity|exact Ha
                        |exact Hb|exact Hab]|]).
  exact (duplicate_labels_flagged ascii_lower ascii_int_of_str _ _ _ _
           0%nat 2%nat _ _ Hrun Hij eq_refl eq_refl Ha Hb Hab).
Defined.

(** Blank labels are left out of the check: two rows without a label are
    not duplicates of each other. *)
Example blank_labels_not_duplicates :
  analyze_data ascii_lower ascii_int_of_str
    [lit ""; lit "  "; lit "A"] [PInt 1; PInt 2; PInt 3]
  = Ok ([], mk_stats 6 3 1 4).
Proof. by_evaluation. Qed.

(** ** More on hints *)

(** X11. [give_hint] writes the counter of hints and nothing else, never
    lowers it, raises it by one at most, and answers with the generic
    message exactly when the counter had reached the cap. *)
Theorem give_hint_frame (state : SessionState) (topic : str) :
  let after := (give_hint state topic).2 in
  after = set_hints_given (hints_given after) state
  ∧ hints_given state ≤ hints_given after ≤ hints_given state + 1
  ∧ ((give_hint state topic).1 = HINT_FALLBACK
     ↔ MAX_HINTS_PER_STEP ≤ hints_given state)
  ∧ (hints_given after = hints_given state
     ↔ MAX_HINTS_PER_STEP ≤ hints_given state).
Proof.
  intros after. unfold after.
  destruct (Z.lt_ge_cases (hints_given state) MAX_HINTS_PER_STEP) as [Hlt|Hge].
  - rewrite give_hint_fresh by done. simpl.
    pose proof (topic_hint_not_fallback topic).
    split; [done|]. split; [lia|]. split; split; try done; lia.
  - rewrite give_hint_capped by done. simpl.
    split; [by destruct state|]. split; [lia|]. done.
Qed.

(** Once the cap is reached, every further call gives the generic message
    and leaves the state alone. *)
Lemma give_hints_capped (topics : list str) (state : SessionState) :
  MAX_HINTS_PER_STEP ≤ hints_given state →
  give_hints state topics
  = (replicate (length topics) HINT_FALLBACK, state).
Proof.
  intros Hc. induction topics as [|t topics IH]; [done|].
  simpl. rewrite give_hint_capped by done. by rewrite IH.
Qed.

(** X12. From a counter at 0, any number of calls in a step: the first
    gets the hint of its topic, all the others the generic message, and
    the counter ends at 1. *)
Theorem give_hints_sequence (state : SessionState) (topic : str)
    (topics : list str) :
  hints_given state = 0 →
  give_hints state (topic :: topics)
  = (topic_hint topic :: replicate (length topics) HINT_FALLBACK,
     set_hints_given 1 state).
Proof.
  intros H0. simpl. rewrite give_hint_fresh by (rewrite H0; done).
  rewrite give_hints_capped by (simpl; rewrite H0; done). by rewrite H0.
Qed.

Lemma give_hints_sequence_witness :
  hints_given default_state = 0
  ∧ give_hints default_state [lit "data"; lit "scale"; lit "data"]
    = (topic_hint (lit "data") :: replicate 2 HINT_FALLBACK,
       set_hints_given 1 default_state).
Proof.
  split; [reflexivity|].
  exact (give_hints_sequence default_state (lit "data")
           [lit "scale"; lit "data"] eq_refl).
Defined.

(** ** More on the table of step 2 *)



Section Table.

Variable int_of_str : str -> option Z.
Variable float_repr : Z -> Z -> str.



Lemma row_count_normalised (row : gmap string pyval) :
  normalised int_of_str (row_count int_of_str row).
Proof.
  unfold normalised, row_count.
  destruct (py_int int_of_str (row_value row)) as [z|e] eqn:Hv.
  - left. by exists z.
  - right. by exists e.
Qed.

(** A count that is stored is rejected by [int] exactly when the cell it
    comes from is. *)
Lemma row_count_rejected (row : gmap string pyval) :
  (∃ e, py_int int_of_str (row_count int_of_str row) = Raised e)
  ↔ (∃ e, py_int int_of_str (row_value row) = Raised e).
Proof.
  unfold row_count.
  destruct (py_int int_of_str (row_value row)) as [z|e] eqn:Hv.
  - split; intros [e He]; discriminate He.
  - rewrite Hv. done.
Qed.


Lemma extract_rows_shape (data : list (gmap string pyval)) :
  Forall (fun c => strip c = c) (extract_rows int_of_str float_repr data).1
  ∧ Forall (normalised int_of_str)
      (extract_rows int_of_str float_repr data).2.
Proof.
  unfold extract_rows. rewrite foldl_extract_row. simpl. split.
  - apply Forall_fmap, Forall_forall. intros row _. simpl.
    unfold row_category. apply strip_idempotent.
  - apply Forall_fmap, Forall_forall. intros row _. simpl.
    apply row_count_normalised.
Qed.

(** X13. Whatever the table holds, the extraction loop stores stripped
    labels, and counts that are integers or values [int] rejects; [int]
    rejects a stored count exactly when it rejects the cell of a kept row,
    which is when the analysis of the stored table reports non-integer
    counts. *)
Theorem extract_rows_normalised (data : list (gmap string pyval)) :
  let cats := (extract_rows int_of_str float_repr data).1 in
  let vals := (extract_rows int_of_str float_repr data).2 in
  Forall (fun c => strip c = c) cats
  ∧ Forall (normalised int_of_str) vals
  ∧ ((∃ e, traverse (py_int int_of_str) vals = Raised e)
     ↔ Exists (fun row => ∃ e, py_int int_of_str (row_value row) = Raised e)
         (filter (row_kept float_repr) data)).
Proof.
  intros cats vals. unfold cats, vals, extract_rows.
  split; [apply extract_rows_shape|]. split; [apply extract_rows_shape|].
  rewrite foldl_extract_row. simpl.
  - rewrite traverse_Raised, Exists_fmap.
    split; intros Hex; (eapply Exists_impl; [exact Hex|]);
      intros row; simpl; apply row_count_rejected.
Qed.



End Table.


(** Without a label the round trip can lose a row: a fraction below 1 is
    kept the first time (it is not 0), stored as 0, and dropped when the
    table is read again. *)
Example unlabelled_fraction_lost :
  let data := [table_row [] (PFloat (FFinite 1 (- 1)))] in
  let first := extract_rows ascii_int_of_str (fun _ _ => []) data in
  first = ([[]], [PInt 0])
  ∧ extract_rows ascii_int_of_str (fun _ _ => [])
      (initial_rows (set_counts first.2 (set_categories first.1 default_state)))
    = ([], []).
Proof. split; by_evaluation. Qed.

(** ** More on the runs of the script *)

Section Pages.

Variable lower : str -> str.
Variable int_of_str : str -> option Z.
Variable float_repr : Z -> Z -> str.

(** X15. On step 2, when the analysis of the table returns, a validation
    click moves to step 3 exactly when the table has two kept rows or
    more: rows without a label count, and reported issues do not hold the
    student back. *)
Theorem step2_validation_rows (w : widgets) (engine : SessionState) :
  step engine = 2 →
  (∃ r, analyze_data lower int_of_str
          (categories (stored_table int_of_str float_repr w engine))
          (counts (stored_table int_of_str float_repr w engine)) = Ok r) →
  (step (interact lower int_of_str float_repr ValidateClick w engine).1.1 = 3
   ↔ (2 ≤ length (filter (row_kept float_repr) (w_data w)))%nat)
  ∧ (step (interact lower int_of_str float_repr ValidateClick w engine).1.1
     = 3
     ∨ step (interact lower int_of_str float_repr ValidateClick w engine).1.1
       = 2).
Proof.
  intros H2 [[issues stats] Hr].
  pose proof (interact_validate_step2 lower int_of_str float_repr w engine H2)
    as Hi.
  rewrite Hr in Hi. rewrite Hi. clear Hi Hr.
  set (stored := stored_table int_of_str float_repr w engine).
  assert (step stored = 2) as Hs by exact H2.
  destruct (validate_click_unfold stats stored ltac:(lia)) as [msg ->].
  assert (length (categories stored)
          = length (filter (row_kept float_repr) (w_data w))) as Hc.
  { unfold stored, stored_table, extract_rows.
    rewrite foldl_extract_row. simpl. by rewrite length_fmap. }
  assert (length (counts stored)
          = length (filter (row_kept float_repr) (w_data w))) as Hv.
  { unfold stored, stored_table, extract_rows.
    rewrite foldl_extract_row. simpl. by rewrite length_fmap. }
  assert (can_advance (step stored) stored stats
          = bool_decide
              (2 ≤ length (filter (row_kept float_repr) (w_data w)))%nat)
    as ->.
  { rewrite Hs. unfold can_advance.
    change (2 =? 1) with false. change (2 =? 2) with true. cbv iota.
    rewrite Hc, Hv. rewrite (bool_decide_eq_true_2 (_ = _)) by done.
    by rewrite andb_true_r. }
  case_bool_decide; simpl; rewrite H2; (split; [split|]); auto; lia.
Qed.

(** X16. On step 3, when [int] accepts every stored count, a validation
    click that moves to step 4 has a justification that is not empty and
    a top, the one stored for the report, above every count. *)
Theorem step3_top_above_counts (w : widgets) (engine : SessionState)
    (coerced : list Z) :
  step engine = 3 →
  Forall2 (fun x z => py_int int_of_str x = Ok z) (counts engine) coerced →
  step (interact lower int_of_str float_repr ValidateClick w engine).1.1 = 4 →
  w_scale_justif w ≠ []
  ∧ Forall (fun z => z < w_top_val w) coerced
  ∧ scale_choice
      (interact lower int_of_str float_repr ValidateClick w engine).1.1
    !! "top" = Some (w_top_val w).
Proof.
  intros H3 Hf.
  pose proof (interact_validate_step3 lower int_of_str float_repr w engine H3)
    as Hi.
  destruct (analyze_data lower int_of_str (categories engine) (counts engine))
    as [[issues stats]|e] eqn:Hr.
  2:{ rewrite Hi. simpl. lia. }
  rewrite Hi. clear Hi.
  set (stored := stored_scale w engine).
  assert (step stored = 3) as Hs by exact H3.
  destruct (validate_click_unfold stats stored ltac:(lia)) as [msg ->].
  assert (can_advance (step stored) stored stats
          = truthy (Some (w_scale_justif w))
            && (get0 stats "max" <? w_top_val w)) as Hg.
  { rewrite Hs. reflexivity. }
  assert (step (reset_hints stored) = 3) as Hs' by exact H3.
  rewrite Hg. clear Hg.
  destruct (truthy (Some (w_scale_justif w))
            && (get0 stats "max" <? w_top_val w)) eqn:Hb.
  2:{ intros Hn. exfalso. change (step (reset_hints stored) = 4) in Hn. lia. }
  apply andb_true_iff in Hb as [Ht Hlt]. apply Z.ltb_lt in Hlt.
  intros _. split; [by destruct (w_scale_justif w)|].
  split; [|reflexivity].
  apply analyze_data_returned in Hr as (total & maxv & s & Hc & _ & ->).
  apply traverse_Ok in Hf.
  rewrite (analyze_counts_accepted _ _ _ _ _ Hf) in Hc.
  injection Hc as _ _ <-.
  change (get0 (mk_stats total (py_max coerced) s
                  (round_top (py_max coerced) s)) "max")
    with (py_max coerced) in Hlt.
  eapply Forall_impl; [apply py_max_upper|]. simpl. intros z Hz. lia.
Qed.

(** X17. The number inputs of step 3 open within their bounds when no
    count is negative: the first on a step of 1 or more, always; the
    second on a value that is at least the minimum it is given exactly
    when the maximum is 0 or more. *)
Theorem number_input_defaults (cats : list str) (counts : list pyval)
    (issues : list str) (stats : gmap string Z) :
  analyze_data lower int_of_str cats counts = Ok (issues, stats) →
  1 ≤ step_input_value stats
  ∧ (top_input_min stats ≤ top_input_value stats ↔ 0 ≤ get0 stats "max").
Proof.
  intros Hr.
  apply analyze_data_returned in Hr as (total & maxv & s & _ & Hs & ->).
  pose proof (suggest_step_ge_1 _ _ Hs) as Hge.
  change (step_input_value (mk_stats total maxv s (round_top maxv s)))
    with s.
  change (top_input_min (mk_stats total maxv s (round_top maxv s)))
    with (Z.max 1 (maxv + 1)).
  change (top_input_value (mk_stats total maxv s (round_top maxv s)))
    with (round_top maxv s).
  change (get0 (mk_stats total maxv s (round_top maxv s)) "max") with maxv.
  split; [done|].
  destruct (decide (maxv = 0)) as [->|Hm].
  { unfold round_top. simpl. lia. }
  pose proof (round_top_exceeds maxv s Hge Hm).
  pose proof (round_top_within_step maxv s Hge Hm).
  destruct (Z.lt_ge_cases maxv 0) as [Hneg|?]; [|lia].
  assert (round_top maxv s ≤ 0); [|lia].
  unfold round_top. destruct (Z.eqb_spec maxv 0); [done|].
  assert (maxv `div` s < 0) by (apply Z.div_lt_upper_bound; lia). nia.
Qed.

End Pages.

Lemma step2_validation_rows_witness :
  let w :=
    mkWidgets [] [] [] []
      [table_row (lit "Pomme") (PInt 3); table_row [] (PInt 5);
       table_row [] (PInt 0)]
      1 10 [] (fun _ => false) [] [] in
  let engine := set_step 2 default_state in
  let after :=
    (interact ascii_lower ascii_int_of_str (fun _ _ => [])
       ValidateClick w engine).1.1 in
  step engine = 2
  ∧ (∃ r, analyze_data ascii_lower ascii_int_of_str
            (categories
               (stored_table ascii_int_of_str (fun _ _ => []) w engine))
            (counts
               (stored_table ascii_int_of_str (fun _ _ => []) w engine))
          = Ok r)
  ∧ (step after = 3
     ↔ (2 ≤ length (filter (row_kept (fun _ _ => [])) (w_data w)))%nat)
  ∧ (step after = 3 ∨ step after = 2).
Proof.
  intros w engine after.
  assert (H2 : step engine = 2) by reflexivity.
  assert (Hr : ∃ r, analyze_data ascii_lower ascii_int_of_str
                      (categories (stored_table ascii_int_of_str
                                     (fun _ _ => []) w engine))
                      (counts (stored_table ascii_int_of_str
                                 (fun _ _ => []) w engine))
                    = Ok r).
  { exists ([], mk_stats 8 5 1 6). by_evaluation. }
  split; [exact H2|]. split; [exact Hr|].
  exact (step2_validation_rows ascii_lower ascii_int_of_str (fun _ _ => [])
           w engine H2 Hr).
Defined.

Lemma step3_top_above_counts_witness :
  let w :=
    mkWidgets [] [] [] [] [] 5 40 (lit "Huit graduations.")
      (fun _ => false) [] [] in
  let engine :=
    set_step 3
      (set_counts [PInt 37; PInt 12]
         (set_categories [lit "A"; lit "B"] default_state)) in
  let after :=
    (interact ascii_lower ascii_int_of_str (fun _ _ => [])
       ValidateClick w engine).1.1 in
  step engine = 3
  ∧ Forall2 (fun x z => py_int ascii_int_of_str x = Ok z)
      (counts engine) [37; 12]
  ∧ step after = 4
  ∧ w_scale_justif w ≠ []
  ∧ Forall (fun z => z < w_top_val w) [37; 12]
  ∧ scale_choice after !! "top" = Some (w_top_val w).
Proof.
  intros w engine after.
  assert (H3 : step engine = 3) by reflexivity.
  assert (Hf : Forall2 (fun x z => py_int ascii_int_of_str x = Ok z)
                 (counts engine) [37; 12]) by (repeat constructor).
  assert (H4 : step after = 4) by by_evaluation.
  split; [exact H3|]. split; [exact Hf|]. split; [exact H4|].
  exact (step3_top_above_counts ascii_lower ascii_int_of_str (fun _ _ => [])
           w engine [37; 12] H3 Hf H4).
Defined.

Lemma number_input_defaults_witness :
  analyze_data ascii_lower ascii_int_of_str
    [lit "A"; lit "B"] [PInt 37; PInt 12]
  = Ok ([], mk_stats 49 37 5 40)
  ∧ 1 ≤ step_input_value (mk_stats 49 37 5 40)
  ∧ (top_input_min (mk_stats 49 37 5 40)
     ≤ top_input_value (mk_stats 49 37 5 40)
     ↔ 0 ≤ get0 (mk_stats 49 37 5 40) "max").
Proof.
  split; [exact analyze_clean_data|].
  exact (number_input_defaults ascii_lower ascii_int_of_str _ _ _ _
           analyze_clean_data).
Defined.

(** With negative counts only, the second number input of step 3 is given
    a value below its minimum. *)
Example top_input_below_minimum :
  analyze_data ascii_lower ascii_int_of_str
    [lit "A"; lit "B"] [PInt (- 5); PInt (- 7)]
  = Ok ([MSG_NEGATIVE], mk_stats (- 12) (- 5) 1 (- 4))
  ∧ top_input_value (mk_stats (- 12) (- 5) 1 (- 4)) = - 4
  ∧ top_input_min (mk_stats (- 12) (- 5) 1 (- 4)) = 1.
Proof. repeat split; by_evaluation. Qed.

(** ** The checklist of step 4 *)

(** The checklist after the loop of step 4: the seven keys hold the
    values of the check boxes, the other keys are left as they were. *)
Lemma foldl_insert_lookup (f : string → bool) (keys : list string)
    (m : gmap string bool) (k : string) :
  foldl (fun m key => <[key := f key]> m) m keys !! k
  = if decide (k ∈ keys) then Some (f k) else m !! k.
Proof.
  revert m. induction keys as [|key keys IH]; intros m.
  - destruct (decide (k ∈ [])) as [Hin|_]; [|done].
    by apply elem_of_nil in Hin.
  - change (foldl (fun m key => <[key := f key]> m) m (key :: keys))
      with (foldl (fun m key => <[key := f key]> m) (<[key := f key]> m) keys).
    rewrite IH, lookup_insert.
    destruct (decide (k ∈ keys)) as [Hin|Hin],
      (decide (k ∈ key :: keys)) as [Hin'|Hin'],
      (decide (key = k)) as [Heq|Hne]; try done.
    + destruct Hin'. by apply list_elem_of_further.
    + destruct Hin'. by apply list_elem_of_further.
    + by subst.
    + apply elem_of_cons in Hin' as [->|?]; done.
    + destruct Hin'. subst. apply list_elem_of_here.
Qed.

Lemma foldl_set_checklist (f : string → bool) (keys : list string)
    (engine : SessionState) :
  foldl (fun e key => set_checklist (<[key := f key]> (checklist e)) e)
    engine keys
  = set_checklist
      (foldl (fun m key => <[key := f key]> m) (checklist engine) keys)
      engine.
Proof.
  revert engine. induction keys as [|key keys IH]; intros engine; simpl.
  - by destruct engine.
  - by rewrite IH.
Qed.

Lemma stored_checklist_lookup (w : widgets) (engine : SessionState)
    (k : string) :
  checklist (stored_checklist w engine) !! k
  = if decide (k ∈ CHECK_KEYS) then Some (w_checks w k)
    else checklist engine !! k.
Proof.
  unfold stored_checklist. rewrite foldl_set_checklist.
  exact (foldl_insert_lookup (w_checks w) CHECK_KEYS (checklist engine) k).
Qed.

Lemma stored_checklist_step (w : widgets) (engine : SessionState) :
  step (stored_checklist w engine) = step engine.
Proof. unfold stored_checklist. by rewrite foldl_set_checklist. Qed.

(** The validation block of step 4 on a checklist that holds the values
    [f] of the boxes under the seven keys and nothing else. *)
Lemma validate_click_boxes (f : string → bool) (stored : SessionState) :
  step stored = 4 →
  (∀ k, checklist stored !! k
        = if decide (k ∈ CHECK_KEYS) then Some (f k) else None) →
  (∀ key, key ∈ CHECK_KEYS →
          checklist (validate_click ∅ stored).1.1 !! key = Some (f key))
  ∧ (∀ key, key ∉ CHECK_KEYS →
            checklist (validate_click ∅ stored).1.1 !! key = None)
  ∧ (step (validate_click ∅ stored).1.1 = 5
     ↔ ∃ key, key ∈ CHECK_KEYS ∧ f key = true)
  ∧ (step (validate_click ∅ stored).1.1 = 5
     ∨ step (validate_click ∅ stored).1.1 = 4).
Proof.
  intros Hs Hl.
  assert (can_advance (step stored) stored ∅ = true
          ↔ ∃ key, key ∈ CHECK_KEYS ∧ f key = true) as Hg.
  { rewrite Hs. unfold can_advance.
    change (4 =? 1) with false. change (4 =? 2) with false.
    change (4 =? 3) with false. change (4 =? 4) with true. cbv iota.
    rewrite bool_decide_eq_true. unfold map_Exists. split.
    - intros (k & v & Hk & ->). rewrite Hl in Hk.
      destruct (decide (k ∈ CHECK_KEYS)); [|done]. exists k.
      split; [done|]. by injection Hk.
    - intros (k & Hin & Hk). exists k, true. split; [|done].
      rewrite Hl. by rewrite decide_True, Hk by done. }
  assert (checklist (validate_click ∅ stored).1.1 = checklist stored
          ∧ step (validate_click ∅ stored).1.1
            = if can_advance (step stored) stored ∅ then 5 else 4)
    as [Hc Hst].
  { destruct (validate_click_unfold ∅ stored ltac:(lia)) as [msg ->].
    destruct (can_advance (step stored) stored ∅).
    - split; [reflexivity|]. change (step stored + 1 = 5). lia.
    - split; [reflexivity|exact Hs]. }
  rewrite Hst. split; [|split; [|split]].
  - intros k Hk. rewrite Hc, Hl. by rewrite decide_True.
  - intros k Hk. rewrite Hc, Hl. by rewrite decide_False.
  - rewrite <- Hg. destruct (can_advance (step stored) stored ∅); split;
      try done; lia.
  - destruct (can_advance (step stored) stored ∅); auto.
Qed.

Section Checklist.

Variable lower : str -> str.
Variable int_of_str : str -> option Z.
Variable float_repr : Z -> Z -> str.

(** A validation click on step 4 runs the validation block on the stored
    checklist. *)
Lemma interact_validate_step4 (w : widgets) (engine : SessionState) :
  step engine = 4 →
  interact lower int_of_str float_repr ValidateClick w engine
  = validate_click ∅ (stored_checklist w engine).
Proof.
  intros H4. unfold interact, script, validate_click, stored_checklist.
  rewrite !foldl_set_checklist.
  destruct engine as [st hg g v vt cs ns sc sj cl im rf]. simpl in *.
  subst st. reflexivity.
Qed.

(** X18. On step 4, with a checklist that has no other key than the seven
    of the page, a validation click stores the value of each check box
    under its key and moves to step 5 exactly when one box at least is
    ticked. *)
Theorem step4_validation_boxes (w : widgets) (engine : SessionState) :
  step engine = 4 →
  (∀ key, key ∉ CHECK_KEYS → checklist engine !! key = None) →
  let after :=
    (interact lower int_of_str float_repr ValidateClick w engine).1.1 in
  (∀ key, key ∈ CHECK_KEYS → checklist after !! key = Some (w_checks w key))
  ∧ (∀ key, key ∉ CHECK_KEYS → checklist after !! key = None)
  ∧ (step after = 5 ↔ ∃ key, key ∈ CHECK_KEYS ∧ w_checks w key = true)
  ∧ (step after = 5 ∨ step after = 4).
Proof.
  intros H4 Hdom after. unfold after.
  rewrite (interact_validate_step4 w engine H4).
  apply (validate_click_boxes (w_checks w)).
  - by rewrite stored_checklist_step.
  - intros k. rewrite stored_checklist_lookup.
    destruct (decide (k ∈ CHECK_KEYS)); [done|by apply Hdom].
Qed.

End Checklist.

(** ** The session through the pages *)

Lemma buttons_state (c : click) (topic : str)
    (validate : SessionState → SessionState * list notice * status)
    (engine : SessionState) :
  (buttons c topic validate engine).1.1
  = match c with
    | HintClick => (give_hint engine topic).2
    | ValidateClick => (validate engine).1.1
    | _ => engine
    end.
Proof.
  unfold buttons. destruct c; try reflexivity.
  by destruct (give_hint engine topic).
Qed.

Lemma on_validate_state (stats : gmap string Z) (engine : SessionState) :
  (on_validate_1 engine).1.1
  = (if can_advance 1 engine ∅ then set_step 2 engine else engine)
  ∧ (on_validate_2 engine).1.1
    = (if can_advance 2 engine ∅ then set_step 3 engine else engine)
  ∧ (on_validate_3 stats engine).1.1
    = (if can_advance 3 engine stats then set_step 4 engine else engine)
  ∧ (on_validate_4 engine).1.1
    = (if can_advance 4 engine ∅ then set_step 5 engine else engine).
Proof.
  rewrite on_validate_1_guard, on_validate_2_guard, on_validate_3_guard,
    on_validate_4_guard.
  repeat split; by case_match.
Qed.

(** The state [give_hint] leaves: the one it found, or the one it found
    with one hint more, below the cap before. *)
Lemma give_hint_state (engine : SessionState) (topic : str) :
  (give_hint engine topic).2 = engine
  ∨ (hints_given engine < MAX_HINTS_PER_STEP
     ∧ (give_hint engine topic).2
       = set_hints_given (hints_given engine + 1) engine).
Proof.
  destruct (Z.lt_ge_cases (hints_given engine) MAX_HINTS_PER_STEP) as [Hlt|Hge].
  - right. split; [done|]. by rewrite give_hint_fresh.
  - left. by rewrite give_hint_capped.
Qed.

Section Session.

Variable lower : str -> str.
Variable int_of_str : str -> option Z.
Variable float_repr : Z -> Z -> str.

(** The state a run of the script leaves, page by page. *)
Lemma script_state (c : click) (w : widgets) (engine : SessionState) :
  (script lower int_of_str float_repr c w engine).1.1 =
  if decide (c = SidebarReset) then default_state
  else if step engine =? 1 then
    (buttons c (lit "data") on_validate_1 (stored_question w engine)).1.1
  else if step engine =? 2 then
    match analyze_data lower int_of_str
            (categories (stored_table int_of_str float_repr w engine))
            (counts (stored_table int_of_str float_repr w engine)) with
    | Ok _ =>
        (buttons c (lit "data") on_validate_2
           (stored_table int_of_str float_repr w engine)).1.1
    | Raised _ => stored_table int_of_str float_repr w engine
    end
  else if step engine =? 3 then
    match analyze_data lower int_of_str
            (categories engine) (counts engine) with
    | Ok (_, stats) =>
        (buttons c (lit "scale") (on_validate_3 stats)
           (stored_scale w engine)).1.1
    | Raised _ => engine
    end
  else if step engine =? 4 then
    (buttons c (lit "labels") on_validate_4 (stored_checklist w engine)).1.1
  else if step engine =? 5 then
    (if decide (c = BackToStart) then default_state
     else set_reflection (Some (w_reflection w)) engine)
  else engine.
Proof.
  unfold script.
  destruct (decide (c = SidebarReset)) as [->|Hc]; [reflexivity|].
  assert (∀ (T : Type) (a b : T),
            match c with SidebarReset => a | _ => b end = b) as Hm
    by (intros; by destruct c).
  rewrite Hm. clear Hm.
  destruct (step engine =? 1).
  { unfold stored_question.
    by destruct (buttons c (lit "data") on_validate_1 _) as [[e1 o1] s1]. }
  destruct (step engine =? 2).
  { unfold stored_table.
    destruct (extract_rows int_of_str float_repr (w_data w)) as [cats vals].
    cbn [fst snd].
    destruct (analyze_data lower int_of_str _ _) as [[issues stats]|e];
      [|reflexivity].
    by destruct (buttons c (lit "data") on_validate_2 _) as [[e1 o1] s1]. }
  destruct (step engine =? 3).
  { by destruct (analyze_data lower int_of_str (categories engine)
                   (counts engine)) as [[issues stats]|e]. }
  destruct (step engine =? 4); [reflexivity|].
  destruct (step engine =? 5); [|reflexivity].
  by destruct c.
Qed.

(** The widgets of a page write fields the step does not depend on. *)
Lemma stored_steps (w : widgets) (engine : SessionState) :
  step (stored_question w engine) = step engine
  ∧ step (stored_table int_of_str float_repr w engine) = step engine
  ∧ step (stored_scale w engine) = step engine
  ∧ step (stored_checklist w engine) = step engine.
Proof.
  split; [reflexivity|]. split; [reflexivity|]. split; [reflexivity|].
  apply stored_checklist_step.
Qed.

(** The callback of the validation button, on the pages that have the
    button. *)
Lemma interact_script (c : click) (w : widgets) (engine : SessionState) :
  ∃ engine0,
    interact lower int_of_str float_repr c w engine
    = script lower int_of_str float_repr c w engine0
    ∧ (engine0 = engine ∨ engine0 = reset_hints engine).
Proof.
  unfold interact. destruct (_ && _).
  - exists (callback c engine). split; [done|]. destruct c; auto.
  - exists engine. auto.
Qed.

(** X19. A click moves the step by one page at most: it stays where it
    is, or goes up by one, which only a validation click on steps 1 to 4
    does, or goes back to 1, which only the two reset buttons do. *)
Theorem step_moves (c : click) (w : widgets) (engine : SessionState) :
  let after := (interact lower int_of_str float_repr c w engine).1.1 in
  step after = step engine
  ∨ (c = ValidateClick ∧ 1 ≤ step engine ≤ 4
     ∧ step after = step engine + 1)
  ∨ ((c = SidebarReset ∨ (c = BackToStart ∧ step engine = 5))
     ∧ step after = 1).
Proof.
  intros after. unfold after.
  destruct (interact_script c w engine) as (engine0 & -> & H0).
  assert (step engine0 = step engine) as <- by (by destruct H0 as [-> | ->]).
  clear H0 engine after.
  rewrite script_state.
  destruct (stored_steps w engine0) as (S1 & S2 & S3 & S4).
  destruct (decide (c = SidebarReset)) as [->|Hc]; [right; right; auto|].
  assert (∀ t v e,
            (step (v e).1.1 = step e
             ∨ (1 ≤ step e ≤ 4 ∧ step (v e).1.1 = step e + 1)) →
            step (buttons c t v e).1.1 = step e
            ∨ (c = ValidateClick ∧ 1 ≤ step e ≤ 4
               ∧ step (buttons c t v e).1.1 = step e + 1)) as Hb.
  { intros t v e Hv. rewrite buttons_state. destruct c; auto.
    - left. by destruct (give_hint_state e t) as [-> | [_ ->]].
    - destruct Hv as [?|[? ?]]; auto. }
  assert (∀ (b : bool) (k : Z) (e : SessionState),
            step e = k → 1 ≤ k ≤ 4 →
            step (if b then set_step (k + 1) e else e) = step e
            ∨ (1 ≤ step e ≤ 4
               ∧ step (if b then set_step (k + 1) e else e) = step e + 1))
    as Hv.
  { intros b k e He Hk. destruct b; [right|left; done].
    split; [lia|]. rewrite He. reflexivity. }
  destruct (on_validate_state ∅ (stored_question w engine0)) as (V1 & _).
  destruct (on_validate_state ∅ (stored_table int_of_str float_repr w engine0))
    as (_ & V2 & _).
  destruct (on_validate_state ∅ (stored_checklist w engine0))
    as (_ & _ & _ & V4).
  destruct (Z.eqb_spec (step engine0) 1) as [E1|_].
  { rewrite <- S1.
    destruct (Hb (lit "data") on_validate_1 (stored_question w engine0))
      as [H|H]; auto.
    rewrite V1. apply (Hv _ 1); [by rewrite S1|lia]. }
  destruct (Z.eqb_spec (step engine0) 2) as [E2|_].
  { rewrite <- S2.
    destruct (analyze_data lower int_of_str _ _) as [r|e]; [|auto].
    destruct (Hb (lit "data") on_validate_2
                (stored_table int_of_str float_repr w engine0))
      as [H|H]; auto.
    rewrite V2. apply (Hv _ 2); [by rewrite S2|lia]. }
  destruct (Z.eqb_spec (step engine0) 3) as [E3|_].
  { destruct (analyze_data lower int_of_str _ _) as [[issues stats]|e];
      [|auto].
    rewrite <- S3.
    destruct (Hb (lit "scale") (on_validate_3 stats) (stored_scale w engine0))
      as [H|H]; auto.
    destruct (on_validate_state stats (stored_scale w engine0))
      as (_ & _ & V3 & _).
    rewrite V3. apply (Hv _ 3); [by rewrite S3|lia]. }
  destruct (Z.eqb_spec (step engine0) 4) as [E4|_].
  { rewrite <- S4.
    destruct (Hb (lit "labels") on_validate_4 (stored_checklist w engine0))
      as [H|H]; auto.
    rewrite V4. apply (Hv _ 4); [by rewrite S4|lia]. }
  destruct (Z.eqb_spec (step engine0) 5) as [E5|_]; [|auto].
  destruct (decide (c = BackToStart)) as [->|_]; [|auto].
  right. right. auto.
Qed.

(** *** What holds on every page *)

Lemma session_ok_default : session_ok lower int_of_str default_state.
Proof.
  unfold session_ok, default_state. fields.
  split; [lia|]. split; [by vm_compute|]. split; [done|].
  split; [intros; apply lookup_empty|]. repeat split; intros; lia.
Qed.

Lemma session_ok_hints (h : Z) (engine : SessionState) :
  0 ≤ h ≤ MAX_HINTS_PER_STEP →
  session_ok lower int_of_str engine →
  session_ok lower int_of_str (set_hints_given h engine).
Proof.
  unfold session_ok. fields. intros Hh (H1 & _ & H3). by split; [|split].
Qed.

Lemma session_ok_give_hint (engine : SessionState) (topic : str) :
  session_ok lower int_of_str engine →
  session_ok lower int_of_str (give_hint engine topic).2.
Proof.
  intros HP. destruct (give_hint_state engine topic) as [-> | [Hlt ->]];
    [done|].
  apply session_ok_hints; [|done].
  destruct HP as (_ & Hh & _). lia.
Qed.

Lemma session_ok_question (w : widgets) (engine : SessionState) :
  step engine = 1 →
  session_ok lower int_of_str engine →
  session_ok lower int_of_str (stored_question w engine).
Proof.
  unfold session_ok. fields. intros E (H1 & H2 & H3 & H4 & _).
  repeat (split; [done|]). repeat split; intros; lia.
Qed.

Lemma session_ok_table (w : widgets) (engine : SessionState) :
  step engine = 2 →
  session_ok lower int_of_str engine →
  session_ok lower int_of_str (stored_table int_of_str float_repr w engine).
Proof.
  unfold session_ok. fields. intros E (H1 & H2 & _ & H4 & H5 & _).
  split; [done|]. split; [done|].
  split.
  { unfold extract_rows. rewrite foldl_extract_row. simpl.
    by rewrite !length_fmap. }
  split; [done|]. split; [done|]. repeat split; intros; lia.
Qed.

Lemma session_ok_scale (w : widgets) (engine : SessionState) :
  step engine = 3 →
  session_ok lower int_of_str engine →
  session_ok lower int_of_str (stored_scale w engine).
Proof.
  unfold session_ok. fields. intros E (H1 & H2 & H3 & H4 & H5 & H6 & _).
  repeat (split; [done|]). repeat split; intros; lia.
Qed.

Lemma stored_checklist_fields (w : widgets) (engine : SessionState) :
  ∃ m, stored_checklist w engine
       = set_improvement (Some (w_improvement w)) (set_checklist m engine).
Proof. unfold stored_checklist. rewrite foldl_set_checklist. by eexists. Qed.

Lemma session_ok_checklist (w : widgets) (engine : SessionState) :
  step engine = 4 →
  session_ok lower int_of_str engine →
  session_ok lower int_of_str (stored_checklist w engine).
Proof.
  intros E (H1 & H2 & H3 & H4 & H5 & H6 & H7 & _).
  assert (∀ key, key ∉ CHECK_KEYS
                 → checklist (stored_checklist w engine) !! key = None)
    as Hdom.
  { intros key Hk. rewrite stored_checklist_lookup.
    rewrite decide_False by done. by apply H4. }
  destruct (stored_checklist_fields w engine) as [m Hm].
  rewrite Hm in *. clear Hm. unfold session_ok. fields.
  repeat (split; [done|]). intros; lia.
Qed.

Lemma session_ok_reflection (w : widgets) (engine : SessionState) :
  session_ok lower int_of_str engine →
  session_ok lower int_of_str
    (set_reflection (Some (w_reflection w)) engine).
Proof. unfold session_ok. by fields. Qed.

(** A guard that holds takes the session to the next page with what the
    page promises. *)
Lemma session_ok_advance (stats : gmap string Z) (issues : list str)
    (engine : SessionState) :
  session_ok lower int_of_str engine →
  1 ≤ step engine ≤ 4 →
  can_advance (step engine) engine stats = true →
  (step engine = 3 →
   analyze_data lower int_of_str (categories engine) (counts engine)
   = Ok (issues, stats)) →
  session_ok lower int_of_str (set_step (step engine + 1) engine).
Proof.
  unfold session_ok. fields.
  intros (H1 & H2 & H3 & H4 & H5 & H6 & H7 & H8) Hs Hg Hr.
  split; [lia|]. repeat (split; [done|]).
  unfold can_advance in Hg.
  assert (step engine = 1 ∨ step engine = 2 ∨ step engine = 3
          ∨ step engine = 4) as [E|[E|[E|E]]] by lia;
    rewrite E in *; simpl in Hg.
  - apply andb_true_iff in Hg as [Ha Hb].
    split; [done|]. repeat split; intros; lia.
  - apply andb_true_iff in Hg as [Hg _]. apply bool_decide_eq_true in Hg.
    split; [intros; apply H5; lia|]. split; [done|].
    split; intros; lia.
  - apply andb_true_iff in Hg as [Hj Hlt]. apply Z.ltb_lt in Hlt.
    split; [intros; apply H5; lia|]. split; [intros; apply H6; lia|].
    split; [|intros; lia]. intros _. split; [done|].
    exists issues, stats. split; [by apply Hr|done].
  - split; [intros; apply H5; lia|]. split; [intros; apply H6; lia|].
    split; [intros; apply H7; lia|]. intros _.
    by rewrite any_value_spec.
Qed.

Lemma session_ok_advance_to (stats : gmap string Z) (issues : list str)
    (k : Z) (engine : SessionState) :
  session_ok lower int_of_str engine →
  step engine = k → 1 ≤ k ≤ 4 →
  can_advance k engine stats = true →
  (k = 3 →
   analyze_data lower int_of_str (categories engine) (counts engine)
   = Ok (issues, stats)) →
  session_ok lower int_of_str (set_step (k + 1) engine).
Proof.
  intros HP <- Hk Hg Hr. by apply (session_ok_advance stats issues).
Qed.

Lemma session_ok_buttons (c : click) (topic : str)
    (validate : SessionState → SessionState * list notice * status)
    (engine : SessionState) :
  session_ok lower int_of_str engine →
  session_ok lower int_of_str (validate engine).1.1 →
  session_ok lower int_of_str (buttons c topic validate engine).1.1.
Proof.
  intros HP Hv. rewrite buttons_state. destruct c; try done.
  by apply session_ok_give_hint.
Qed.

Lemma session_ok_script (c : click) (w : widgets) (engine : SessionState) :
  session_ok lower int_of_str engine →
  session_ok lower int_of_str
    (script lower int_of_str float_repr c w engine).1.1.
Proof.
  intros HP. rewrite script_state.
  destruct (stored_steps w engine) as (S1 & S2 & S3 & S4).
  destruct (decide (c = SidebarReset)); [apply session_ok_default|].
  destruct (Z.eqb_spec (step engine) 1) as [E1|_].
  { pose proof (session_ok_question w engine E1 HP) as HQ.
    apply session_ok_buttons; [done|].
    rewrite (proj1 (on_validate_state ∅ _)).
    destruct (can_advance 1 _ ∅) eqn:Hg; [|done].
    apply (session_ok_advance_to ∅ [] 1 _ HQ); (done || lia). }
  destruct (Z.eqb_spec (step engine) 2) as [E2|_].
  { pose proof (session_ok_table w engine E2 HP) as HQ.
    destruct (analyze_data lower int_of_str _ _) as [r|e]; [|done].
    apply session_ok_buttons; [done|].
    rewrite (proj1 (proj2 (on_validate_state ∅ _))).
    destruct (can_advance 2 _ ∅) eqn:Hg; [|done].
    apply (session_ok_advance_to ∅ [] 2 _ HQ); (done || lia). }
  destruct (Z.eqb_spec (step engine) 3) as [E3|_].
  { pose proof (session_ok_scale w engine E3 HP) as HQ.
    destruct (analyze_data lower int_of_str (categories engine)
                (counts engine)) as [[issues stats]|e] eqn:Hr; [|done].
    apply session_ok_buttons; [done|].
    rewrite (proj1 (proj2 (proj2 (on_validate_state stats _)))).
    destruct (can_advance 3 _ stats) eqn:Hg; [|done].
    apply (session_ok_advance_to stats issues 3 _ HQ); (done || lia). }
  destruct (Z.eqb_spec (step engine) 4) as [E4|_].
  { pose proof (session_ok_checklist w engine E4 HP) as HQ.
    apply session_ok_buttons; [done|].
    rewrite (proj2 (proj2 (proj2 (on_validate_state ∅ _)))).
    destruct (can_advance 4 _ ∅) eqn:Hg; [|done].
    apply (session_ok_advance_to ∅ [] 4 _ HQ); [by rewrite S4|lia|done|lia]. }
  destruct (Z.eqb_spec (step engine) 5) as [E5|_]; [|done].
  destruct (decide (c = BackToStart)); [apply session_ok_default|].
  by apply session_ok_reflection.
Qed.

Lemma session_ok_interact (c : click) (w : widgets)
    (engine : SessionState) :
  session_ok lower int_of_str engine →
  session_ok lower int_of_str
    (interact lower int_of_str float_repr c w engine).1.1.
Proof.
  intros HP. destruct (interact_script c w engine) as (e0 & -> & [-> | ->]).
  - by apply session_ok_script.
  - apply session_ok_script. apply session_ok_hints; [by vm_compute|done].
Qed.

Lemma run_events_session_ok (events : list (click * widgets)) :
  session_ok lower int_of_str
    (run_events lower int_of_str float_repr events).
Proof.
  unfold run_events.
  assert (∀ engine, session_ok lower int_of_str engine →
            session_ok lower int_of_str
              (foldl (fun engine cw =>
                        (interact lower int_of_str float_repr
                           cw.1 cw.2 engine).1.1) engine events)) as Hall.
  { induction events as [|[c w] events IH]; intros engine HP; [done|].
    simpl. apply IH. by apply session_ok_interact. }
  apply Hall, session_ok_default.
Qed.

(** X20. Whatever the student clicks and enters, from a fresh session:
    the step stays between 1 and 5 and the counter of hints between 0 and
    1, the stored categories and counts have the same length, the
    checklist has no other key than the seven of step 4, and the session
    is on a page only with the guards of the pages before it true of the
    stored data: a question and a variable from step 2 on, two categories
    from step 3 on, a justification and a top above the computed maximum
    from step 4 on, a ticked item on step 5. *)
Theorem reachable_session_ok (events : list (click * widgets)) :
  let engine := run_events lower int_of_str float_repr events in
  1 ≤ step engine ≤ 5
  ∧ 0 ≤ hints_given engine ≤ 1
  ∧ length (categories engine) = length (counts engine)
  ∧ (∀ key, key ∉ CHECK_KEYS → checklist engine !! key = None)
  ∧ (2 ≤ step engine →
     truthy (goal engine) = true ∧ truthy (variable engine) = true)
  ∧ (3 ≤ step engine → (2 ≤ length (categories engine))%nat)
  ∧ (4 ≤ step engine →
     truthy (scale_justif engine) = true
     ∧ ∃ issues stats,
         analyze_data lower int_of_str (categories engine) (counts engine)
         = Ok (issues, stats)
         ∧ get0 stats "max" < get0 (scale_choice engine) "top")
  ∧ (5 ≤ step engine → any_value (checklist engine) = true).
Proof. exact (run_events_session_ok events). Qed.

(** X21. The report a session can reach is complete: on step 5, after
    whatever clicks, the report has one line for each stored category (no
    pair is lost to the shorter list), there are two categories at least,
    and the question, the variable and the justification it prints are not
    empty. *)
Theorem reachable_report_complete (events : list (click * widgets)) :
  let engine := run_events lower int_of_str float_repr events in
  step engine = 5 →
  length (report_lines float_repr engine)
  = (24 + length (categories engine))%nat
  ∧ (2 ≤ length (categories engine))%nat
  ∧ (pair_line float_repr <$> zip (categories engine) (counts engine))
    = take (length (categories engine))
        (drop 6 (report_lines float_repr engine))
  ∧ fmt_opt (goal engine) ≠ []
  ∧ fmt_opt (variable engine) ≠ []
  ∧ fmt_opt (scale_justif engine) ≠ [].
Proof.
  intros engine H5.
  destruct (run_events_session_ok events)
    as (_ & _ & Hlen & _ & Hq & Hc & Hj & _).
  fold engine in Hlen, Hq, Hc, Hj. clearbody engine.
  destruct (Hq ltac:(lia)) as [Hg Hv]. specialize (Hc ltac:(lia)).
  destruct (Hj ltac:(lia)) as [Hjs _].
  rewrite report_lines_layout.
  split; [|split; [done|split]].
  - rewrite !length_app, length_fmap, length_zip_with. simpl. lia.
  - cbn [drop app]. symmetry. apply take_app_length'.
    rewrite length_fmap, length_zip_with. lia.
  - assert (∀ o, truthy o = true → fmt_opt o ≠ []) as Ht.
    { intros [[|c s]|]; simpl; done. }
    auto.
Qed.

End Session.

Lemma step4_validation_boxes_witness :
  let w :=
    mkWidgets [] [] [] [] [] 1 10 []
      (fun key => bool_decide (key = "title")) [] [] in
  let engine := set_step 4 default_state in
  let after :=
    (interact ascii_lower ascii_int_of_str (fun _ _ => [])
       ValidateClick w engine).1.1 in
  step engine = 4
  ∧ (∀ key, key ∉ CHECK_KEYS → checklist engine !! key = None)
  ∧ (∀ key, key ∈ CHECK_KEYS → checklist after !! key = Some (w_checks w key))
  ∧ (∀ key, key ∉ CHECK_KEYS → checklist after !! key = None)
  ∧ (step after = 5 ↔ ∃ key, key ∈ CHECK_KEYS ∧ w_checks w key = true)
  ∧ (step after = 5 ∨ step after = 4).
Proof.
  intros w engine after.
  assert (H4 : step engine = 4) by reflexivity.
  assert (Hdom : ∀ key, key ∉ CHECK_KEYS → checklist engine !! key = None)
    by (intros key _; apply lookup_empty).
  split; [exact H4|]. split; [exact Hdom|].
  exact (step4_validation_boxes ascii_lower ascii_int_of_str (fun _ _ => [])
           w engine H4 Hdom).
Defined.

Lemma reachable_report_complete_witness :
  let w :=
    mkWidgets (lit "Quels fruits ?") (lit "Fruit") (lit "qualitative") []
      [table_row (lit "Pomme") (PInt 37); table_row (lit "Kiwi") (PInt 12)]
      5 40 (lit "Huit graduations.")
      (fun key => bool_decide (key = "title")) (lit "Titre") (lit "Bien.") in
  let events := replicate 4 (ValidateClick, w) in
  let engine :=
    run_events ascii_lower ascii_int_of_str (fun _ _ => []) events in
  step engine = 5
  ∧ length (report_lines (fun _ _ => []) engine)
    = (24 + length (categories engine))%nat
  ∧ (2 ≤ length (categories engine))%nat
  ∧ (pair_line (fun _ _ => [])
       <$> zip (categories engine) (counts engine))
    = take (length (categories engine))
        (drop 6 (report_lines (fun _ _ => []) engine))
  ∧ fmt_opt (goal engine) ≠ []
  ∧ fmt_opt (variable engine) ≠ []
  ∧ fmt_opt (scale_justif engine) ≠ [].
Proof.
  intros w events engine.
  assert (H5 : step engine = 5) by by_evaluation.
  split; [exact H5|].
  exact (reachable_report_complete ascii_lower ascii_int_of_str
           (fun _ _ => []) events H5).
Defined.
